(** * A shallow embedding of the gold rasterizer (gold/rasterizer.c)

    The gold model is plain C over [int], [long], [unsigned char] and
    [unsigned short].  The embedding fixes the machine the model is run on:
    LP64, two's complement, little-endian (x86-64).

    - an [int] is a [Z] in [[-2^31, 2^31)]; [+], [-], [*] and [<<] on [int]
      wrap around ([wrap32]);
    - a [long] is a [Z] in [[-2^63, 2^63)] ([wrap64]);
    - [>>] on a signed value is the arithmetic shift ([Z.shiftr]);
    - the count of a 32-bit shift is taken modulo 32, as the x86 shifter
      does; the statements about the value of a shift keep the count inside
      [[0, 32)] by a precondition, where the C standard fixes the result;
    - [/] on [int] truncates toward zero ([Z.quot]) and traps on a zero
      divisor and on [INT_MIN / -1].

    The two [for] loops of [rasterize_triangle] are run with fuel.  A run
    ends in one of three ways, each of which carries the state reached so far:
    the loop returned, the body trapped, or the fuel ran out. *)

From Stdlib Require Import ZArith Lia List Bool Permutation.
Import ListNotations.

Local Open Scope Z_scope.

(** ** Machine integers *)

Module Int.

Definition wrap32 (z : Z) : Z := (z + 2 ^ 31) mod 2 ^ 32 - 2 ^ 31.
Definition wrap64 (z : Z) : Z := (z + 2 ^ 63) mod 2 ^ 64 - 2 ^ 63.

Definition in_int (z : Z) : Prop := - 2 ^ 31 <= z < 2 ^ 31.

Definition add32 (a b : Z) : Z := wrap32 (a + b).
Definition sub32 (a b : Z) : Z := wrap32 (a - b).
Definition mul32 (a b : Z) : Z := wrap32 (a * b).

(** The shifter only sees the low five bits of the count. *)
Definition count32 (n : Z) : Z := Z.land n 31.

Definition shl32 (a n : Z) : Z := wrap32 (Z.shiftl a (count32 n)).
Definition sar32 (a n : Z) : Z := Z.shiftr a (count32 n).

(** [<<] on an [unsigned int]. *)
Definition shlu32 (a n : Z) : Z := Z.shiftl a (count32 n) mod 2 ^ 32.

(** Conversion [unsigned int -> int]. *)
Definition int_of_uint (u : Z) : Z := wrap32 u.

(** Conversion [int -> unsigned short]. *)
Definition ushort_of_int (i : Z) : Z := i mod 2 ^ 16.

Definition shl64 (a n : Z) : Z := wrap64 (Z.shiftl a n).

(** [a / b] on [int]: [None] is the hardware trap. *)
Definition div32 (a b : Z) : option Z :=
  if b =? 0 then None
  else if (a =? - 2 ^ 31) && (b =? -1) then None
  else Some (Z.quot a b).

End Int.

Import Int.

(** ** Utility functions *)

(** [int min(int a, int b)] *)
Definition min (a b : Z) : Z := if a >=? b then b else a.

(** [int max(int a, int b)] *)
Definition max (a b : Z) : Z := if a >=? b then a else b.

(** [int floor_ss(int val, int r_shift, int ss_w_lg2)]:
    [mask = 0xFFFFFFFF << (r_shift - ss_w_lg2); return val & mask]. *)
Definition floor_ss (val r_shift ss_w_lg2 : Z) : Z :=
  let mask := int_of_uint (shlu32 0xFFFFFFFF (sub32 r_shift ss_w_lg2)) in
  Z.land val mask.


(** ** Data model *)

(** Modelled from the spec: the struct declarations of rasterizer.h, which is
    not part of the sources at hand.  The fields are the ones rasterizer.c
    reads and writes; every positional field is an [int]. *)
Record Vertex := mkVertex
  { vtx_x : Z; vtx_y : Z; vtx_z : Z; vtx_R : Z; vtx_G : Z; vtx_B : Z }.

Record Triangle := mkTriangle { tv0 : Vertex; tv1 : Vertex; tv2 : Vertex }.

(** [triangle.v[i]] *)
Definition v (triangle : Triangle) (i : nat) : Vertex :=
  match i with
  | O => tv0 triangle
  | S O => tv1 triangle
  | _ => tv2 triangle
  end.

Record Screen := mkScreen { width : Z; height : Z }.

Record Config := mkConfig { r_shift : Z; ss_w_lg2 : Z; ss_i : Z }.

Record Sample := mkSample { smp_x : Z; smp_y : Z }.

Record BoundingBox := mkBBox
  { lower_left : Sample; upper_right : Sample; valid : bool }.

Record Fragment := mkFragment { frg_z : Z; frg_R : Z; frg_G : Z; frg_B : Z }.

(** ** Bounding box *)

(** Lines 52-64: the box of the three vertices, built from vertex 0 and
    widened by the loop over vertices 1 and 2. *)
Definition bbox_extent (triangle : Triangle) : BoundingBox :=
  let init :=
    {| lower_left := mkSample (vtx_x (v triangle 0)) (vtx_y (v triangle 0));
       upper_right := mkSample (vtx_x (v triangle 0)) (vtx_y (v triangle 0));
       valid := true |} in
  fold_left
    (fun bbox i =>
       {| lower_left :=
            mkSample (min (smp_x (lower_left bbox)) (vtx_x (v triangle i)))
                     (min (smp_y (lower_left bbox)) (vtx_y (v triangle i)));
          upper_right :=
            mkSample (max (smp_x (upper_right bbox)) (vtx_x (v triangle i)))
                     (max (smp_y (upper_right bbox)) (vtx_y (v triangle i)));
          valid := valid bbox |})
    [1%nat; 2%nat] init.

(** Lines 67-70: round the box down to the subsample grid. *)
Definition bbox_snap (config : Config) (bbox : BoundingBox) : BoundingBox :=
  let fl c := floor_ss c (r_shift config) (ss_w_lg2 config) in
  {| lower_left :=
       mkSample (fl (smp_x (lower_left bbox))) (fl (smp_y (lower_left bbox)));
     upper_right :=
       mkSample (fl (smp_x (upper_right bbox))) (fl (smp_y (upper_right bbox)));
     valid := valid bbox |}.

(** Lines 73-76: clip to the screen. *)
Definition bbox_clip (screen : Screen) (bbox : BoundingBox) : BoundingBox :=
  {| lower_left :=
       mkSample (max (smp_x (lower_left bbox)) 0)
                (max (smp_y (lower_left bbox)) 0);
     upper_right :=
       mkSample (min (smp_x (upper_right bbox)) (width screen))
                (min (smp_y (upper_right bbox)) (height screen));
     valid := valid bbox |}.

(** Lines 81-84: the validity test, on the box it is handed. *)
Definition bbox_check (screen : Screen) (bbox : BoundingBox) : BoundingBox :=
  if (smp_x (upper_right bbox) <? 0) || (smp_y (upper_right bbox) <? 0) ||
     (smp_x (lower_left bbox) >? width screen) ||
     (smp_y (lower_left bbox) >? height screen)
  then {| lower_left := lower_left bbox;
          upper_right := upper_right bbox;
          valid := false |}
  else bbox.

(** [BoundingBox get_bounding_box(Triangle, Screen, Config)] *)
Definition get_bounding_box
           (triangle : Triangle) (screen : Screen) (config : Config)
  : BoundingBox :=
  bbox_check screen (bbox_clip screen (bbox_snap config (bbox_extent triangle))).

(** The box after the snap and before the clip. *)
Definition snapped_box (triangle : Triangle) (config : Config) : BoundingBox :=
  bbox_snap config (bbox_extent triangle).

(** ** Coverage test *)

(** [bool sample_test(Triangle triangle, Sample sample)] *)
Definition sample_test (triangle : Triangle) (sample : Sample) : bool :=
  let v0_x := sub32 (vtx_x (v triangle 0)) (smp_x sample) in
  let v0_y := sub32 (vtx_y (v triangle 0)) (smp_y sample) in
  let v1_x := sub32 (vtx_x (v triangle 1)) (smp_x sample) in
  let v1_y := sub32 (vtx_y (v triangle 1)) (smp_y sample) in
  let v2_x := sub32 (vtx_x (v triangle 2)) (smp_x sample) in
  let v2_y := sub32 (vtx_y (v triangle 2)) (smp_y sample) in
  let b0 := sub32 (mul32 v0_x v1_y) (mul32 v1_x v0_y) <=? 0 in
  let b1 := sub32 (mul32 v1_x v2_y) (mul32 v2_x v1_y) <? 0 in
  let b2 := sub32 (mul32 v2_x v0_y) (mul32 v0_x v2_y) <=? 0 in
  b0 && b1 && b2.

(** ** Jitter hash *)

(** Byte [i] of a word stored in little-endian order. *)
Definition byte_le (w : Z) (i : nat) : Z :=
  Z.land (Z.shiftr w (8 * Z.of_nat i)) 0xff.

(** The first [n] bytes of the store [*(long * )arr = w]. *)
Definition bytes_le (n : nat) (w : Z) : list Z := map (byte_le w) (seq 0 n).

(** [void hash_40to8(uchar *arr40, ushort *val, int shift)]; the value
    written to [val[0]] is the result. *)
Definition hash_40to8 (arr40 : list Z) (shift : Z) : Z :=
  let mask := ushort_of_int (sar32 0x00ff shift) in
  let arr32_0 := Z.lxor (nth 0 arr40 0) (nth 1 arr40 0) in
  let arr32_1 := Z.lxor (nth 1 arr40 0) (nth 2 arr40 0) in
  let arr32_2 := Z.lxor (nth 2 arr40 0) (nth 3 arr40 0) in
  let arr32_3 := Z.lxor (nth 3 arr40 0) (nth 4 arr40 0) in
  let arr16_0 := Z.lxor arr32_0 arr32_2 in
  let arr16_1 := Z.lxor arr32_1 arr32_3 in
  let arr8 := Z.lxor arr16_0 arr16_1 in
  ushort_of_int (Z.land arr8 mask).

(** [Sample jitter_sample(const Sample sample, const int ss_w_lg2)].  The
    two stores through the [long *] casts put an eight-byte word over a
    five-byte array; the hash reads the first five bytes of each word, and
    these are what is modelled. *)
Definition jitter_sample (sample : Sample) (ss_w_lg2 : Z) : Sample :=
  let x := sar32 (smp_x sample) 4 in
  let y := sar32 (smp_y sample) 4 in
  let arr40_1 := bytes_le 5 (Z.lor (shl64 y 20) x) in
  let arr40_2 := bytes_le 5 (Z.lor (shl64 x 20) y) in
  let val_x := hash_40to8 arr40_1 ss_w_lg2 in
  let val_y := hash_40to8 arr40_2 ss_w_lg2 in
  mkSample val_x val_y.

(** ** Orchestrator *)

(** One call [process_fragment(z, hit_location, subsample, f)]. *)
Record FragCall := mkFragCall
  { hit_location : Sample; subsample : Sample; fragment : Fragment }.

(** The fragment of lines 149-153. *)
Definition flat_fragment (triangle : Triangle) : Fragment :=
  {| frg_z := vtx_z (v triangle 0);
     frg_R := vtx_R (v triangle 0);
     frg_G := vtx_G (v triangle 0);
     frg_B := vtx_B (v triangle 0) |}.

(** The state threaded through the two loops.  [hit_count] and the buffer
    behind [z] are the program's; [frag_calls] (the calls made so far, oldest
    first) and [samples_tested] (how often the loop body ran) are history
    variables.  [zbuff = None] is [z == NULL]. *)
Record RState (ZBuff : Type) := mkRState
  { hit_count : Z;
    zbuff : option ZBuff;
    frag_calls : list FragCall;
    samples_tested : nat }.

Arguments mkRState {ZBuff}.
Arguments hit_count {ZBuff}.
Arguments zbuff {ZBuff}.
Arguments frag_calls {ZBuff}.
Arguments samples_tested {ZBuff}.

(** How a run ends. *)
Inductive outcome (ZBuff : Type) : Type :=
| Returned (st : RState ZBuff)
| Trapped (st : RState ZBuff)
| OutOfFuel (st : RState ZBuff).

Arguments Returned {ZBuff}.
Arguments Trapped {ZBuff}.
Arguments OutOfFuel {ZBuff}.

Definition state_of {ZBuff} (o : outcome ZBuff) : RState ZBuff :=
  match o with Returned st | Trapped st | OutOfFuel st => st end.

(** The value of [return hit_count;], when the call gets there. *)
Definition returned_hits {ZBuff} (o : outcome ZBuff) : option Z :=
  match o with Returned st => Some (hit_count st) | _ => None end.

(** [for (i = i0; i <= hi; i += step) body] *)
Fixpoint for_loop {ZBuff} (fuel : nat) (hi step : Z)
         (body : Z -> RState ZBuff -> outcome ZBuff)
         (i : Z) (st : RState ZBuff) : outcome ZBuff :=
  match fuel with
  | O => OutOfFuel st
  | S fuel' =>
      if i <=? hi then
        match body i st with
        | Returned st' => for_loop fuel' hi step body (add32 i step) st'
        | o => o
        end
      else Returned st
  end.

Section Rasterizer.

(** Modelled from the spec: the buffer type [ZBuff] and the external
    [process_fragment], declared in rasterizer.h and defined outside
    rasterizer.c; the rasterizer only ever calls it. *)
Variable ZBuff : Type.
Variable process_fragment : ZBuff -> Sample -> Sample -> Fragment -> ZBuff.

(** Lines 128-157: the body of the inner loop at [sample = (x, y)]. *)
Definition sample_body (triangle : Triangle) (config : Config)
           (x y : Z) (st : RState ZBuff) : outcome ZBuff :=
  let sample := mkSample x y in
  let jitter := jitter_sample sample (ss_w_lg2 config) in
  let jitter := mkSample (shl32 (smp_x jitter) 2) (shl32 (smp_y jitter) 2) in
  let jittered_sample :=
    mkSample (add32 (smp_x sample) (smp_x jitter))
             (add32 (smp_y sample) (smp_y jitter)) in
  let hit := sample_test triangle jittered_sample in
  let st := {| hit_count := hit_count st; zbuff := zbuff st;
               frag_calls := frag_calls st;
               samples_tested := S (samples_tested st) |} in
  if hit then
    let st := {| hit_count := add32 (hit_count st) 1; zbuff := zbuff st;
                 frag_calls := frag_calls st;
                 samples_tested := samples_tested st |} in
    match zbuff st with
    | None => Returned st
    | Some z =>
        let hit_location :=
          mkSample (sar32 (smp_x sample) (r_shift config))
                   (sar32 (smp_y sample) (r_shift config)) in
        match div32 (sub32 (smp_x sample)
                           (shl32 (smp_x hit_location) (r_shift config)))
                    (ss_i config) with
        | None => Trapped st
        | Some sub_x =>
            match div32 (sub32 (smp_y sample)
                               (shl32 (smp_y hit_location) (r_shift config)))
                        (ss_i config) with
            | None => Trapped st
            | Some sub_y =>
                let subsample := mkSample sub_x sub_y in
                let f := flat_fragment triangle in
                Returned
                  {| hit_count := hit_count st;
                     zbuff := Some (process_fragment z hit_location subsample f);
                     frag_calls :=
                       frag_calls st ++ [mkFragCall hit_location subsample f];
                     samples_tested := samples_tested st |}
            end
        end
    end
  else Returned st.

(** [int hit_count = 0;] with the buffer the caller passed. *)
Definition init_state (z : option ZBuff) : RState ZBuff :=
  {| hit_count := 0; zbuff := z; frag_calls := []; samples_tested := 0 |}.

(** [int rasterize_triangle(Triangle, ZBuff *z, Screen, Config)] *)
Definition rasterize_triangle (fuel : nat) (triangle : Triangle)
           (z : option ZBuff) (screen : Screen) (config : Config)
  : outcome ZBuff :=
  let bbox := get_bounding_box triangle screen config in
  for_loop fuel (smp_x (upper_right bbox)) (ss_i config)
    (fun x st =>
       for_loop fuel (smp_y (upper_right bbox)) (ss_i config)
         (fun y st => sample_body triangle config x y st)
         (smp_y (lower_left bbox)) st)
    (smp_x (lower_left bbox)) (init_state z).

End Rasterizer.

Arguments sample_body {ZBuff}.
Arguments init_state {ZBuff}.
Arguments rasterize_triangle {ZBuff}.

(** ** Vocabulary of the specification *)

(** A vertex in the frame where [sample] is the origin (lines 98-103). *)
Definition shifted (vt : Vertex) (sample : Sample) : Z * Z :=
  (sub32 (vtx_x vt) (smp_x sample), sub32 (vtx_y vt) (smp_y sample)).

(** The 2D cross product of two shifted endpoints, on [int]. *)
Definition cross (a b : Z * Z) : Z :=
  sub32 (mul32 (fst a) (snd b)) (mul32 (fst b) (snd a)).

Definition next_vertex (i : nat) : nat := Nat.modulo (i + 1) 3.

(** The cross product of directed edge [i -> (i+1) mod 3]. *)
Definition edge_cross (triangle : Triangle) (sample : Sample) (i : nat) : Z :=
  cross (shifted (v triangle i) sample)
        (shifted (v triangle (next_vertex i)) sample).

(** Edges 0->1 and 2->0 are compared with [<=], edge 1->2 with [<]. *)
Definition inclusive_edge (i : nat) : bool := negb (Nat.eqb i 1).

Definition edge_pass (triangle : Triangle) (sample : Sample) (i : nat) : bool :=
  if inclusive_edge i then edge_cross triangle sample i <=? 0
  else edge_cross triangle sample i <? 0.

(** The rule in the words of the specification: a non-negative cross product
    on edges 0->1 and 2->0, a strictly negative one on edge 1->2. *)
Definition spec_edge_rule (triangle : Triangle) (sample : Sample) : Prop :=
  0 <= edge_cross triangle sample 0 /\
  edge_cross triangle sample 1 < 0 /\
  0 <= edge_cross triangle sample 2.

(** The box lies off the screen: its upper right is negative on an axis or
    its lower left exceeds the screen extent on an axis. *)
Definition off_screen (bbox : BoundingBox) (screen : Screen) : Prop :=
  smp_x (upper_right bbox) < 0 \/ smp_y (upper_right bbox) < 0 \/
  smp_x (lower_left bbox) > width screen \/
  smp_y (lower_left bbox) > height screen.

(** The box and the screen region [[0,width] x [0,height]] share a point. *)
Definition overlaps (bbox : BoundingBox) (screen : Screen) : Prop :=
  exists px py,
    smp_x (lower_left bbox) <= px <= smp_x (upper_right bbox) /\
    smp_y (lower_left bbox) <= py <= smp_y (upper_right bbox) /\
    0 <= px <= width screen /\ 0 <= py <= height screen.

Definition same_position (a b : Vertex) : Prop :=
  vtx_x a = vtx_x b /\ vtx_y a = vtx_y b.

(** Edge [i] of [A] is edge [j] of [B] walked the other way. *)
Definition shared_edge (A : Triangle) (i : nat) (B : Triangle) (j : nat) : Prop :=
  same_position (v A i) (v B (next_vertex j)) /\
  same_position (v A (next_vertex i)) (v B j).

(** The sample passes the two edge tests of the triangle other than [i]. *)
Definition others_pass (triangle : Triangle) (sample : Sample) (i : nat) : Prop :=
  forall k, (k < 3)%nat -> k <> i -> edge_pass triangle sample k = true.

(** The [Config] invariant of the data model. *)
Definition well_formed (config : Config) : Prop :=
  0 <= ss_w_lg2 config <= r_shift config /\ r_shift config < 31 /\
  ss_i config = 2 ^ (r_shift config - ss_w_lg2 config).

(** Every vertex lies in the screen region. *)
Definition inside_screen (triangle : Triangle) (screen : Screen) : Prop :=
  forall i, (i < 3)%nat ->
    0 <= vtx_x (v triangle i) <= width screen /\
    0 <= vtx_y (v triangle i) <= height screen.

(** The positional fields are [int]s. *)
Definition int_triangle (triangle : Triangle) : Prop :=
  forall i, (i < 3)%nat ->
    in_int (vtx_x (v triangle i)) /\ in_int (vtx_y (v triangle i)).

(** The coverage test in exact integer arithmetic at the point [(px, py)]:
    inside the triangle, or on an edge the fill rule selects. *)
Definition covered_ref (triangle : Triangle) (px py : Z) : bool :=
  let ax := vtx_x (v triangle 0) - px in
  let ay := vtx_y (v triangle 0) - py in
  let bx := vtx_x (v triangle 1) - px in
  let b_y := vtx_y (v triangle 1) - py in
  let cx := vtx_x (v triangle 2) - px in
  let cy := vtx_y (v triangle 2) - py in
  (ax * b_y - bx * ay <=? 0) && (bx * cy - cx * b_y <? 0) &&
  (cx * ay - ax * cy <=? 0).

(** The grid coordinates [0, step, 2*step, ...] up to [extent]. *)
Definition grid_axis (extent step : Z) : list Z :=
  map (fun k => Z.of_nat k * step) (seq 0 (Z.to_nat (extent / step) + 1)).

(** The brute-force reference: every subsample-grid point of the screen is
    put to the exact edge test, and the covered ones are counted. *)
Definition brute_force_hits
           (triangle : Triangle) (screen : Screen) (config : Config) : Z :=
  Z.of_nat
    (length
       (filter (fun p => covered_ref triangle (fst p) (snd p))
          (list_prod (grid_axis (width screen) (ss_i config))
                     (grid_axis (height screen) (ss_i config))))).

(** The triangle's box and one grid cell fit in 15 bits on each axis, so the
    products of [sample_test] stay inside [int] on the walked samples. *)
Definition small_extent (triangle : Triangle) (config : Config) : Prop :=
  smp_x (upper_right (bbox_extent triangle)) -
  smp_x (lower_left (bbox_extent triangle)) + ss_i config <= 2 ^ 15 /\
  smp_y (upper_right (bbox_extent triangle)) -
  smp_y (lower_left (bbox_extent triangle)) + ss_i config <= 2 ^ 15.

(** The loop increments [sample.x += ss_i] and [sample.y += ss_i] stay
    inside [int] on the whole screen. *)
Definition walk_in_range (screen : Screen) (config : Config) : Prop :=
  width screen + ss_i config < 2 ^ 31 /\ height screen + ss_i config < 2 ^ 31.

(** What a delivered call looks like when the sample was a non-negative
    grid point: pixel coordinates non-negative, subsample index inside the
    pixel's [2^ss_w_lg2 x 2^ss_w_lg2] grid. *)
Definition call_in_pixel (config : Config) (c : FragCall) : Prop :=
  0 <= smp_x (hit_location c) /\ 0 <= smp_y (hit_location c) /\
  0 <= smp_x (subsample c) < 2 ^ ss_w_lg2 config /\
  0 <= smp_y (subsample c) < 2 ^ ss_w_lg2 config.

(** The sample the coverage test is run on in the iteration at [(x, y)]
    (lines 128-134). *)
Definition jittered_at (config : Config) (x y : Z) : Sample :=
  let jitter := jitter_sample (mkSample x y) (ss_w_lg2 config) in
  mkSample (add32 x (shl32 (smp_x jitter) 2)) (add32 y (shl32 (smp_y jitter) 2)).

(** The calls in the log, replayed on a buffer. *)
Definition replay {ZBuff}
           (process_fragment : ZBuff -> Sample -> Sample -> Fragment -> ZBuff)
           (calls : list FragCall) (z : ZBuff) : ZBuff :=
  fold_left
    (fun z c => process_fragment z (hit_location c) (subsample c) (fragment c))
    calls z.

(** The fragment carries vertex 0's depth and colour. *)
Definition flat_shaded (triangle : Triangle) (c : FragCall) : Prop :=
  frg_z (fragment c) = vtx_z (v triangle 0) /\
  frg_R (fragment c) = vtx_R (v triangle 0) /\
  frg_G (fragment c) = vtx_G (v triangle 0) /\
  frg_B (fragment c) = vtx_B (v triangle 0).

(** ** Vocabulary of the further properties *)

(** The triangle and the sample moved by [(dx, dy)], on [int]. *)
Definition translate_vertex (dx dy : Z) (vt : Vertex) : Vertex :=
  {| vtx_x := add32 (vtx_x vt) dx; vtx_y := add32 (vtx_y vt) dy;
     vtx_z := vtx_z vt; vtx_R := vtx_R vt; vtx_G := vtx_G vt; vtx_B := vtx_B vt |}.

Definition translate_triangle (dx dy : Z) (triangle : Triangle) : Triangle :=
  mkTriangle (translate_vertex dx dy (v triangle 0))
             (translate_vertex dx dy (v triangle 1))
             (translate_vertex dx dy (v triangle 2)).

Definition translate_sample (dx dy : Z) (sample : Sample) : Sample :=
  mkSample (add32 (smp_x sample) dx) (add32 (smp_y sample) dy).

(** The same triangle with vertices 1 and 2 exchanged. *)
Definition reverse_winding (triangle : Triangle) : Triangle :=
  mkTriangle (v triangle 0) (v triangle 2) (v triangle 1).

(** Twice the signed area of the triangle (the shoelace sum). *)
Definition orientation (triangle : Triangle) : Z :=
  (vtx_x (v triangle 1) - vtx_x (v triangle 0)) *
  (vtx_y (v triangle 2) - vtx_y (v triangle 0)) -
  (vtx_x (v triangle 2) - vtx_x (v triangle 0)) *
  (vtx_y (v triangle 1) - vtx_y (v triangle 0)).

(** The sample that sits on a vertex. *)
Definition sample_at (vt : Vertex) : Sample := mkSample (vtx_x vt) (vtx_y vt).

(** The shifted vertices of the triangle fit in 15 bits around [(px, py)]. *)
Definition near (triangle : Triangle) (px py : Z) : Prop :=
  forall i, (i < 3)%nat ->
    - 2 ^ 15 < vtx_x (v triangle i) - px < 2 ^ 15 /\
    - 2 ^ 15 < vtx_y (v triangle i) - py < 2 ^ 15.

(** The call of lines 141-155 for a hit at the nominal sample [p], when
    the divisions do not trap. *)
Definition call_of (triangle : Triangle) (config : Config) (p : Z * Z) : FragCall :=
  let hl := mkSample (sar32 (fst p) (r_shift config))
                     (sar32 (snd p) (r_shift config)) in
  mkFragCall hl
    (mkSample
       (Z.quot (sub32 (fst p) (shl32 (smp_x hl) (r_shift config))) (ss_i config))
       (Z.quot (sub32 (snd p) (shl32 (smp_y hl) (r_shift config))) (ss_i config)))
    (flat_fragment triangle).

(** The nominal sample a call stands for: pixel times pixel width plus
    subsample index times stride. *)
Definition sample_of_call (config : Config) (c : FragCall) : Z * Z :=
  (smp_x (hit_location c) * 2 ^ r_shift config + smp_x (subsample c) * ss_i config,
   smp_y (hit_location c) * 2 ^ r_shift config + smp_y (subsample c) * ss_i config).

(** The walked grid points that are hits, in the order the loops visit
    them: x outermost, y innermost. *)
Definition hit_samples (triangle : Triangle) (config : Config) (xs ys : list Z)
  : list (Z * Z) :=
  filter (fun p => sample_test triangle (jittered_at config (fst p) (snd p)))
         (list_prod xs ys).

(** The triangle's box, one grid cell and the largest jitter fit in 15
    bits on each axis. *)
Definition small_extent_jittered (triangle : Triangle) (config : Config) : Prop :=
  smp_x (upper_right (bbox_extent triangle)) -
  smp_x (lower_left (bbox_extent triangle)) + ss_i config + 1024 <= 2 ^ 15 /\
  smp_y (upper_right (bbox_extent triangle)) -
  smp_y (lower_left (bbox_extent triangle)) + ss_i config + 1024 <= 2 ^ 15.

(** The same triangle named from vertex 1 on. *)
Definition rotate_vertices (triangle : Triangle) : Triangle :=
  mkTriangle (v triangle 1) (v triangle 2) (v triangle 0).

(** ** Loops unrolled *)

(** The values a loop variable takes in [n] iterations from [i]. *)
Fixpoint walk (n : nat) (i step : Z) : list Z :=
  match n with
  | O => []
  | S n' => i :: walk n' (i + step) step
  end.

(** How many iterations [for (v = i; v <= hi; v += step)] makes when the
    increment does not wrap. *)
Definition steps (i hi step : Z) : nat :=
  if i <=? hi then S (Z.to_nat ((hi - i) / step)) else O.

(** A loop body run over an explicit list of values. *)
Fixpoint run_list {ZBuff} (body : Z -> RState ZBuff -> outcome ZBuff)
         (l : list Z) (st : RState ZBuff) : outcome ZBuff :=
  match l with
  | [] => Returned st
  | j :: l' =>
      match body j st with
      | Returned st' => run_list body l' st'
      | o => o
      end
  end.

(** A state of the run without a buffer against a state of the run with
    one: same count, nothing delivered. *)
Definition null_matches {ZBuff} (s1 s2 : RState ZBuff) : Prop :=
  hit_count s1 = hit_count s2 /\ zbuff s1 = None /\ frag_calls s1 = [].

(** Outcomes of the two runs side by side.  The run with a buffer may trap
    in the subsample division; the run without one then either is out of
    fuel or, inside one iteration where [stuck] holds, has returned. *)
Definition outcome_matches {ZBuff} (stuck : Prop) (o1 o2 : outcome ZBuff) : Prop :=
  match o1, o2 with
  | Returned s1, Returned s2 => null_matches s1 s2
  | OutOfFuel _, OutOfFuel _ => True
  | OutOfFuel _, Trapped _ => True
  | Returned s1, Trapped _ => stuck /\ zbuff s1 = None
  | _, _ => False
  end.

(** The hit counter holds [n] modulo [2^32]. *)
Definition counted {ZBuff} (st : RState ZBuff) (n : Z) : Prop :=
  hit_count st = wrap32 n.

(** The covered samples among the grid points [xs x ys], each tested at its
    jittered position as the loop body does. *)
Definition hits_on (triangle : Triangle) (config : Config) (xs ys : list Z) : Z :=
  Z.of_nat
    (length
       (filter (fun p => sample_test triangle (jittered_at config (fst p) (snd p)))
               (list_prod xs ys))).

(** The x (or y) coordinates the loops visit between [lo] and [hi]. *)
Definition walked (lo hi step : Z) : list Z := walk (steps lo hi step) lo step.

(** ** Test inputs *)

(** A buffer that records what it is handed. *)
Definition recording_buffer := list FragCall.

Definition record_fragment
           (z : recording_buffer) (hit_location subsample : Sample) (f : Fragment)
  : recording_buffer :=
  z ++ [mkFragCall hit_location subsample f].

Definition vertex_at (px py : Z) : Vertex := mkVertex px py 7 1 2 3.

(** A right triangle wound the way the coverage test expects. *)
Definition tri_right : Triangle :=
  mkTriangle (vertex_at 0 0) (vertex_at 0 4) (vertex_at 4 0).

(** [tri_right] mirrored in its edge 0->1: the two triangles share that
    edge, walked in opposite directions, and lie on opposite sides of it. *)
Definition tri_left : Triangle :=
  mkTriangle (vertex_at 0 4) (vertex_at 0 0) (vertex_at (-4) 0).

(** A triangle across the left border of the screen. *)
Definition tri_straddle : Triangle :=
  mkTriangle (vertex_at (-16) 0) (vertex_at 0 16) (vertex_at 16 0).

(** One sample per pixel, four fractional bits. *)
Definition config_r4 : Config := mkConfig 4 0 16.

(** [tri_left] with its vertices rotated: the edge shared with [tri_right]
    is now its edge 1->2. *)
Definition tri_left_rot : Triangle :=
  mkTriangle (vertex_at (-4) 0) (vertex_at 0 4) (vertex_at 0 0).

(** A corner triangle a little wider than one pixel of [config_r10]. *)
Definition tri_corner : Triangle :=
  mkTriangle (vertex_at 0 0) (vertex_at 0 1100) (vertex_at 1100 0).

(** One sample per pixel, ten fractional bits. *)
Definition config_r10 : Config := mkConfig 10 0 1024.

Definition screen_4px : Screen := mkScreen 4096 4096.

(** [ss_w_lg2 = 8]: the hash mask is empty. *)
Definition config_no_jitter : Config := mkConfig 10 8 4.

Definition tri_small : Triangle :=
  mkTriangle (vertex_at 3 2) (vertex_at 5 41) (vertex_at 47 9).

Definition screen_64 : Screen := mkScreen 64 64.

(** Two subsamples per pixel and axis, one fractional bit. *)
Definition config_r1 : Config := mkConfig 1 1 1.

Definition screen_256 : Screen := mkScreen 256 256.

(** A triangle left of the screen. *)
Definition tri_off : Triangle :=
  mkTriangle (vertex_at (-100) 0) (vertex_at (-100) 40) (vertex_at (-20) 0).

(** A triangle below a screen as wide as [int] allows. *)
Definition tri_below : Triangle :=
  mkTriangle (vertex_at 0 (-100)) (vertex_at (2 ^ 31 - 1) (-100))
             (vertex_at 5 (-50)).

Definition screen_wide : Screen := mkScreen (2 ^ 31 - 1) 256.

(** A sliver across the whole [int] range, on the largest screen. *)
Definition tri_wide : Triangle :=
  mkTriangle (vertex_at (2 ^ 31 - 10000) 0) (vertex_at (2 ^ 31 - 10000) 100)
             (vertex_at (- 2 ^ 31 + 5000) 0).

Definition screen_full : Screen := mkScreen (2 ^ 31 - 1) (2 ^ 31 - 1).

Definition config_r30 : Config := mkConfig 30 0 (2 ^ 30).

(** The triangle (0,0), (160,0), (0,160): wound against the coverage test. *)
Definition tri_counter : Triangle :=
  mkTriangle (vertex_at 0 0) (vertex_at 160 0) (vertex_at 0 160).

(** * Properties *)

(** ** Lemmas on machine integers *)

Lemma wrap32_id z : in_int z -> wrap32 z = z.
Proof.
  unfold in_int, wrap32. intros H.
  rewrite Z.mod_small; lia.
Qed.

Lemma wrap32_range z : in_int (wrap32 z).
Proof.
  unfold in_int, wrap32.
  pose proof (Z.mod_pos_bound (z + 2 ^ 31) (2 ^ 32) ltac:(lia)). lia.
Qed.

Lemma wrap32_eqm z : exists k, wrap32 z = z + k * 2 ^ 32.
Proof.
  unfold wrap32. exists (- ((z + 2 ^ 31) / 2 ^ 32)).
  pose proof (Z.div_mod (z + 2 ^ 31) (2 ^ 32) ltac:(lia)). lia.
Qed.

Lemma count32_id n : 0 <= n < 32 -> count32 n = n.
Proof.
  intros H. unfold count32. change 31 with (Z.ones 5).
  rewrite Z.land_ones by lia. apply Z.mod_small. change (2 ^ 5) with 32. lia.
Qed.

Lemma count32_range n : 0 <= count32 n < 32.
Proof.
  unfold count32. change 31 with (Z.ones 5).
  rewrite Z.land_ones by lia. change (2 ^ 5) with 32.
  apply Z.mod_pos_bound. lia.
Qed.

(** The mask of [floor_ss] is [- 2^n] for the shifter's count [n]. *)
Lemma mask_value n :
  0 <= n < 32 ->
  wrap32 (Z.shiftl 0xFFFFFFFF n mod 2 ^ 32) = - 2 ^ n.
Proof.
  intros Hn.
  rewrite Z.shiftl_mul_pow2 by lia.
  assert (Hp : 0 < 2 ^ n) by (apply Z.pow_pos_nonneg; lia).
  assert (Hle : 2 ^ n <= 2 ^ 31) by (apply Z.pow_le_mono_r; lia).
  replace (0xFFFFFFFF * 2 ^ n) with (2 ^ 32 - 2 ^ n + (2 ^ n - 1) * 2 ^ 32) by lia.
  rewrite Z.mod_add by lia.
  rewrite (Z.mod_small (2 ^ 32 - 2 ^ n)) by lia.
  unfold wrap32.
  replace (2 ^ 32 - 2 ^ n + 2 ^ 31) with (2 ^ 31 - 2 ^ n + 1 * 2 ^ 32) by lia.
  rewrite Z.mod_add by lia.
  rewrite Z.mod_small by lia. lia.
Qed.

Lemma land_neg_pow2 v n :
  0 <= n -> Z.land v (- 2 ^ n) = 2 ^ n * (v / 2 ^ n).
Proof.
  intros Hn.
  replace (- 2 ^ n) with (Z.lnot (Z.ones n)).
  2:{ rewrite Z.ones_equiv. unfold Z.lnot. lia. }
  rewrite <- Z.ldiff_land, Z.ldiff_ones_r by lia.
  rewrite Z.shiftr_div_pow2, Z.shiftl_mul_pow2 by lia. lia.
Qed.

(** [floor_ss] in closed form: the floor of [val] on the grid of cell
    [2^n], where [n] is the count the shifter sees. *)
Lemma floor_ss_closed val r_shift ss_w_lg2 :
  let n := count32 (sub32 r_shift ss_w_lg2) in
  floor_ss val r_shift ss_w_lg2 = 2 ^ n * (val / 2 ^ n).
Proof.
  intros n. unfold floor_ss, int_of_uint, shlu32. fold n.
  pose proof (count32_range (sub32 r_shift ss_w_lg2)) as Hn. fold n in Hn.
  rewrite mask_value by lia.
  apply land_neg_pow2. lia.
Qed.

Lemma floor_ss_grid val r_shift ss_w_lg2 :
  0 <= ss_w_lg2 <= r_shift -> r_shift < 32 ->
  floor_ss val r_shift ss_w_lg2 =
  2 ^ (r_shift - ss_w_lg2) * (val / 2 ^ (r_shift - ss_w_lg2)).
Proof.
  intros H1 H2. rewrite floor_ss_closed.
  unfold sub32. rewrite wrap32_id by (unfold in_int; lia).
  rewrite count32_id by lia. reflexivity.
Qed.

Lemma wrap32_wrap32_add a b : wrap32 (wrap32 a + b) = wrap32 (a + b).
Proof.
  destruct (wrap32_eqm a) as [k Hk]. rewrite Hk. unfold wrap32.
  replace (a + k * 2 ^ 32 + b + 2 ^ 31) with (a + b + 2 ^ 31 + k * 2 ^ 32) by lia.
  rewrite Z.mod_add by lia. reflexivity.
Qed.

Lemma wrap32_zero_opp z : wrap32 z = 0 -> wrap32 (- z) = 0.
Proof.
  unfold wrap32. intros H.
  assert (Hm : (z + 2 ^ 31) mod 2 ^ 32 = 2 ^ 31) by lia.
  assert (Hz : z mod 2 ^ 32 = 0).
  { replace z with (z + 2 ^ 31 - 2 ^ 31) by lia.
    rewrite Zminus_mod, Hm. reflexivity. }
  apply Z.mod_divide in Hz; [|lia]. destruct Hz as [q Hq]. subst z.
  replace (- (q * 2 ^ 32) + 2 ^ 31) with (2 ^ 31 + (- q) * 2 ^ 32) by lia.
  rewrite Z.mod_add by lia. reflexivity.
Qed.

(** ** The grid floor (claim C7) *)

(** C7.  For [0 <= ss_w_lg2 <= r_shift < 32], [floor_ss val r_shift ss_w_lg2]
    is a multiple of the grid cell [2^(r_shift - ss_w_lg2)], is at most [val],
    and lies less than one cell below [val].  It is the floor of [val] on the
    grid (rounding toward minus infinity): for a negative [val] off the grid
    it is one cell below the value that rounding toward zero would give.  An
    [int] stays an [int]. *)
Theorem floor_ss_rounds_down (val r_shift ss_w_lg2 : Z) :
  0 <= ss_w_lg2 <= r_shift -> r_shift < 32 ->
  let cell := 2 ^ (r_shift - ss_w_lg2) in
  let r := floor_ss val r_shift ss_w_lg2 in
  (cell | r) /\ r <= val /\ val - r < cell /\
  r = cell * (val / cell) /\
  (val < 0 -> ~ (cell | val) -> r = cell * Z.quot val cell - cell) /\
  (in_int val -> in_int r).
Proof.
  intros H1 H2 cell r.
  assert (Hc : 0 < cell) by (apply Z.pow_pos_nonneg; lia).
  assert (Hr : r = cell * (val / cell)) by (apply floor_ss_grid; lia).
  pose proof (Z.div_mod val cell ltac:(lia)) as Hdm.
  pose proof (Z.mod_pos_bound val cell Hc) as Hmb.
  repeat split; try lia.
  - exists (val / cell). lia.
  - intros Hneg Hnd.
    assert (Hnz : val mod cell <> 0).
    { intros E. apply Hnd. apply Z.mod_divide; lia. }
    assert (Hq : Z.quot val cell = val / cell + 1).
    { replace val with (- - val) at 1 by lia.
      rewrite Z.quot_opp_l by lia.
      rewrite Z.quot_div_nonneg by lia.
      rewrite Z_div_nz_opp_full by (lia || exact Hnz). lia. }
    rewrite Hq. lia.
  - destruct H as [Hlo _].
    assert (Hdiv : (cell | - 2 ^ 31)).
    { exists (- 2 ^ (31 - (r_shift - ss_w_lg2))).
      unfold cell.
      replace (- 2 ^ (31 - (r_shift - ss_w_lg2)) * 2 ^ (r_shift - ss_w_lg2))
        with (- (2 ^ (31 - (r_shift - ss_w_lg2)) * 2 ^ (r_shift - ss_w_lg2))) by lia.
      rewrite <- Z.pow_add_r by lia. f_equal. f_equal. lia. }
    destruct Hdiv as [q Hq].
    assert (q <= val / cell).
    { apply Z.div_le_lower_bound; lia. }
    nia.
  - unfold in_int in *. lia.
Qed.

Lemma floor_ss_rounds_down_witness :
  (0 <= 0 <= 4) /\ 4 < 32 /\
  let cell := 2 ^ (4 - 0) in
  let r := floor_ss (-5) 4 0 in
  (cell | r) /\ r <= -5 /\ -5 - r < cell /\
  r = cell * (-5 / cell) /\
  (-5 < 0 -> ~ (cell | -5) -> r = cell * Z.quot (-5) cell - cell) /\
  (in_int (-5) -> in_int r).
Proof.
  split; [lia|]. split; [lia|].
  apply (floor_ss_rounds_down (-5) 4 0); lia.
Defined.

(** ** The coverage test (claim C1) *)

Lemma sample_test_edges triangle sample :
  sample_test triangle sample =
  edge_pass triangle sample 0 && edge_pass triangle sample 1 &&
  edge_pass triangle sample 2.
Proof. reflexivity. Qed.

(** C1 (amended).  [sample_test] returns true iff all three directed-edge
    tests pass, where the 2D cross product of the shifted endpoints, computed
    on [int], passes when it is non-positive for edges 0->1 and 2->0 and when
    it is strictly negative for edge 1->2. *)
Theorem sample_test_edge_rule (triangle : Triangle) (sample : Sample) :
  sample_test triangle sample = true <->
  edge_cross triangle sample 0 <= 0 /\
  edge_cross triangle sample 1 < 0 /\
  edge_cross triangle sample 2 <= 0.
Proof.
  rewrite sample_test_edges. unfold edge_pass. simpl.
  rewrite !andb_true_iff, !Z.leb_le, Z.ltb_lt. tauto.
Qed.

(** The rule as the specification words it (non-negative on edges 0->1 and
    2->0) does not describe [sample_test]: the sample (1,1) inside
    [tri_right] is covered, with cross products -4, -8, -4. *)
Lemma sample_test_not_spec_rule :
  ~ (sample_test tri_right (mkSample 1 1) = true <->
     spec_edge_rule tri_right (mkSample 1 1)).
Proof.
  intros [H _].
  assert (Hhit : sample_test tri_right (mkSample 1 1) = true) by reflexivity.
  apply H in Hhit. destruct Hhit as [H0 _].
  vm_compute in H0. apply H0. reflexivity.
Qed.

(** ** The jitter hash (claim C4) *)

Lemma hash_mask shift :
  0 <= shift <= 8 -> ushort_of_int (sar32 0x00ff shift) = Z.ones (8 - shift).
Proof.
  intros H.
  assert (C : shift = 0 \/ shift = 1 \/ shift = 2 \/ shift = 3 \/ shift = 4 \/
              shift = 5 \/ shift = 6 \/ shift = 7 \/ shift = 8) by lia.
  repeat (destruct C as [C | C]; [subst shift; reflexivity|]).
  subst shift; reflexivity.
Qed.

Lemma hash_40to8_range arr40 shift :
  0 <= shift <= 8 -> 0 <= hash_40to8 arr40 shift < 2 ^ (8 - shift).
Proof.
  intros H. unfold hash_40to8. rewrite hash_mask by exact H.
  rewrite Z.land_ones by lia. unfold ushort_of_int.
  match goal with |- context [?a mod 2 ^ (8 - shift)] => set (h := a) end.
  assert (Hp : 0 < 2 ^ (8 - shift)) by (apply Z.pow_pos_nonneg; lia).
  assert (Hle : 2 ^ (8 - shift) <= 2 ^ 8) by (apply Z.pow_le_mono_r; lia).
  pose proof (Z.mod_pos_bound h (2 ^ (8 - shift)) Hp).
  rewrite Z.mod_small; lia.
Qed.

(** C4.  For [0 <= ss_w_lg2 <= 8] both components of [jitter_sample] lie in
    [[0, 2^(8 - ss_w_lg2))], and the result is determined by the sample's
    coordinates and [ss_w_lg2] alone. *)
Theorem jitter_sample_bounded (sample : Sample) (ss_w_lg2 : Z) :
  0 <= ss_w_lg2 <= 8 ->
  0 <= smp_x (jitter_sample sample ss_w_lg2) < 2 ^ (8 - ss_w_lg2) /\
  0 <= smp_y (jitter_sample sample ss_w_lg2) < 2 ^ (8 - ss_w_lg2) /\
  (forall sample' ss_w_lg2',
      smp_x sample' = smp_x sample -> smp_y sample' = smp_y sample ->
      ss_w_lg2' = ss_w_lg2 ->
      jitter_sample sample' ss_w_lg2' = jitter_sample sample ss_w_lg2).
Proof.
  intros H. unfold jitter_sample. cbn [smp_x smp_y].
  split; [apply hash_40to8_range; exact H|].
  split; [apply hash_40to8_range; exact H|].
  intros s' l' Hx Hy Hl. rewrite Hx, Hy, Hl. reflexivity.
Qed.

Lemma jitter_sample_bounded_witness :
  0 <= 3 <= 8 /\
  0 <= smp_x (jitter_sample (mkSample 12345 67890) 3) < 2 ^ (8 - 3) /\
  0 <= smp_y (jitter_sample (mkSample 12345 67890) 3) < 2 ^ (8 - 3) /\
  (forall sample' ss_w_lg2',
      smp_x sample' = smp_x (mkSample 12345 67890) ->
      smp_y sample' = smp_y (mkSample 12345 67890) ->
      ss_w_lg2' = 3 ->
      jitter_sample sample' ss_w_lg2' = jitter_sample (mkSample 12345 67890) 3).
Proof.
  split; [lia|].
  apply (jitter_sample_bounded (mkSample 12345 67890) 3); lia.
Defined.

(** The mask is empty from [ss_w_lg2 = 8] on, and only there. *)
Lemma jitter_sample_zero sample ss_w_lg2 :
  8 <= ss_w_lg2 < 32 -> jitter_sample sample ss_w_lg2 = mkSample 0 0.
Proof.
  intros H.
  assert (Hm : ushort_of_int (sar32 0x00ff ss_w_lg2) = 0).
  { unfold sar32. rewrite count32_id by lia.
    rewrite Z.shiftr_div_pow2 by lia.
    assert (2 ^ 8 <= 2 ^ ss_w_lg2) by (apply Z.pow_le_mono_r; lia).
    rewrite Z.div_small by lia. reflexivity. }
  unfold jitter_sample, hash_40to8. rewrite Hm.
  rewrite !Z.land_0_r. reflexivity.
Qed.

(** ** The bounding box (claim C3) *)

Lemma min_is_Zmin a b : min a b = Z.min a b.
Proof. unfold min. destruct (Z.geb_spec a b); lia. Qed.

Lemma max_is_Zmax a b : max a b = Z.max a b.
Proof. unfold max. destruct (Z.geb_spec a b); lia. Qed.

Lemma floor_ss_mono a b r_shift ss_w_lg2 :
  a <= b -> floor_ss a r_shift ss_w_lg2 <= floor_ss b r_shift ss_w_lg2.
Proof.
  intros H. rewrite !floor_ss_closed. cbv zeta.
  set (n := count32 (sub32 r_shift ss_w_lg2)).
  assert (Hp : 0 < 2 ^ n).
  { apply Z.pow_pos_nonneg; [lia|]. apply count32_range. }
  apply Z.mul_le_mono_nonneg_l; [lia|].
  apply Z.div_le_mono; lia.
Qed.

Lemma bbox_extent_fields triangle :
  let b := bbox_extent triangle in
  smp_x (lower_left b) =
    Z.min (Z.min (vtx_x (v triangle 0)) (vtx_x (v triangle 1))) (vtx_x (v triangle 2)) /\
  smp_y (lower_left b) =
    Z.min (Z.min (vtx_y (v triangle 0)) (vtx_y (v triangle 1))) (vtx_y (v triangle 2)) /\
  smp_x (upper_right b) =
    Z.max (Z.max (vtx_x (v triangle 0)) (vtx_x (v triangle 1))) (vtx_x (v triangle 2)) /\
  smp_y (upper_right b) =
    Z.max (Z.max (vtx_y (v triangle 0)) (vtx_y (v triangle 1))) (vtx_y (v triangle 2)).
Proof.
  unfold bbox_extent. cbn -[min max].
  rewrite !min_is_Zmin, !max_is_Zmax. auto.
Qed.

Lemma snapped_box_ordered triangle config :
  smp_x (lower_left (snapped_box triangle config)) <=
  smp_x (upper_right (snapped_box triangle config)) /\
  smp_y (lower_left (snapped_box triangle config)) <=
  smp_y (upper_right (snapped_box triangle config)).
Proof.
  destruct (bbox_extent_fields triangle) as (Hlx & Hly & Hux & Huy).
  unfold snapped_box, bbox_snap. cbn [lower_left upper_right smp_x smp_y].
  split; apply floor_ss_mono; lia.
Qed.

(** What the code tests: the clipped box. *)
Lemma valid_false_clipped triangle screen config :
  valid (get_bounding_box triangle screen config) = false <->
  off_screen (bbox_clip screen (snapped_box triangle config)) screen.
Proof.
  unfold get_bounding_box, bbox_check. fold (snapped_box triangle config).
  set (c := bbox_clip screen (snapped_box triangle config)).
  assert (Hv : valid c = true) by reflexivity.
  unfold off_screen.
  destruct (Z.ltb_spec (smp_x (upper_right c)) 0);
    destruct (Z.ltb_spec (smp_y (upper_right c)) 0);
    destruct (Z.gtb_spec (smp_x (lower_left c)) (width screen));
    destruct (Z.gtb_spec (smp_y (lower_left c)) (height screen));
    cbn [orb valid]; rewrite ?Hv; split; intros; try reflexivity;
      try discriminate; lia.
Qed.

Lemma clipped_fields screen b :
  smp_x (lower_left (bbox_clip screen b)) = Z.max (smp_x (lower_left b)) 0 /\
  smp_y (lower_left (bbox_clip screen b)) = Z.max (smp_y (lower_left b)) 0 /\
  smp_x (upper_right (bbox_clip screen b)) =
    Z.min (smp_x (upper_right b)) (width screen) /\
  smp_y (upper_right (bbox_clip screen b)) =
    Z.min (smp_y (upper_right b)) (height screen).
Proof.
  unfold bbox_clip. cbn [lower_left upper_right smp_x smp_y].
  rewrite !min_is_Zmin, !max_is_Zmax. auto.
Qed.

(** C3 (amended).  For every triangle and [Config], and every screen with
    [width >= 0] and [height >= 0], [get_bounding_box] returns
    [valid = false] iff the unclipped, grid-snapped box has a negative upper
    right or a lower left beyond the screen extent on some axis, which is
    iff the snapped box and the screen share no point; a box that touches
    the screen exactly at its boundary is valid.  (The code runs the test on
    the clipped box; the two agree under these screen conditions.) *)
Theorem valid_false_iff_off_screen
        (triangle : Triangle) (screen : Screen) (config : Config) :
  0 <= width screen -> 0 <= height screen ->
  (valid (get_bounding_box triangle screen config) = false <->
   off_screen (snapped_box triangle config) screen) /\
  (valid (get_bounding_box triangle screen config) = false <->
   ~ overlaps (snapped_box triangle config) screen).
Proof.
  intros HW HH.
  pose proof (snapped_box_ordered triangle config) as [Hox Hoy].
  rewrite valid_false_clipped.
  destruct (clipped_fields screen (snapped_box triangle config))
    as (Hlx & Hly & Hux & Huy).
  unfold off_screen, overlaps. rewrite Hlx, Hly, Hux, Huy.
  set (b := snapped_box triangle config) in *.
  split; [lia|].
  split.
  - intros H (px & py & Hx & Hy & Hsx & Hsy). lia.
  - intros Hno.
    destruct (Z_lt_dec (smp_x (upper_right b)) 0); [lia|].
    destruct (Z_lt_dec (smp_y (upper_right b)) 0); [lia|].
    destruct (Z_gt_dec (smp_x (lower_left b)) (width screen)); [lia|].
    destruct (Z_gt_dec (smp_y (lower_left b)) (height screen)); [lia|].
    exfalso. apply Hno.
    exists (Z.max (smp_x (lower_left b)) 0), (Z.max (smp_y (lower_left b)) 0).
    lia.
Qed.

Lemma valid_false_iff_off_screen_witness :
  0 <= width (mkScreen 256 256) /\ 0 <= height (mkScreen 256 256) /\
  (valid (get_bounding_box tri_straddle (mkScreen 256 256) config_r4) = false <->
   off_screen (snapped_box tri_straddle config_r4) (mkScreen 256 256)) /\
  (valid (get_bounding_box tri_straddle (mkScreen 256 256) config_r4) = false <->
   ~ overlaps (snapped_box tri_straddle config_r4) (mkScreen 256 256)).
Proof.
  split; [simpl; lia|]. split; [simpl; lia|].
  apply (valid_false_iff_off_screen tri_straddle (mkScreen 256 256) config_r4);
    simpl; lia.
Defined.

(** On a screen of negative width the clipped upper right is negative for
    every triangle, so the code reports [valid = false] although the
    snapped box of [tri_straddle], [-16 <= x <= 16], has neither a negative
    upper right nor a lower left beyond the extent [-1]. *)
Lemma valid_not_off_screen_negative_width :
  ~ (valid (get_bounding_box tri_straddle (mkScreen (-1) 256) config_r4) = false <->
     off_screen (snapped_box tri_straddle config_r4) (mkScreen (-1) 256)).
Proof.
  intros [H _].
  assert (Hv : valid (get_bounding_box tri_straddle (mkScreen (-1) 256) config_r4)
               = false) by reflexivity.
  apply H in Hv. unfold off_screen in Hv. vm_compute in Hv.
  destruct Hv as [Hv | [Hv | [Hv | Hv]]]; discriminate Hv.
Qed.

(** ** Shared edges (claim C5) *)

Lemma shifted_same_position a b sample :
  same_position a b -> shifted a sample = shifted b sample.
Proof. intros [Hx Hy]. unfold shifted. rewrite Hx, Hy. reflexivity. Qed.

Lemma cross_swap_zero p q : cross p q = 0 -> cross q p = 0.
Proof.
  unfold cross, sub32. intros H.
  replace (mul32 (fst q) (snd p) - mul32 (fst p) (snd q))
    with (- (mul32 (fst p) (snd q) - mul32 (fst q) (snd p))) by lia.
  apply wrap32_zero_opp. exact H.
Qed.

(** A sample on the line of a shared edge is on it for both triangles. *)
Lemma shared_edge_cross_zero A i B j sample :
  shared_edge A i B j ->
  edge_cross A sample i = 0 -> edge_cross B sample j = 0.
Proof.
  intros [H1 H2] Hz. unfold edge_cross in *.
  rewrite (shifted_same_position _ _ sample H1) in Hz.
  rewrite (shifted_same_position _ _ sample H2) in Hz.
  apply cross_swap_zero. exact Hz.
Qed.

Lemma on_edge_pass triangle sample i :
  edge_cross triangle sample i = 0 ->
  edge_pass triangle sample i = inclusive_edge i.
Proof.
  intros H. unfold edge_pass. rewrite H.
  destruct (inclusive_edge i); reflexivity.
Qed.

Lemma sample_test_on_edge triangle sample i :
  (i < 3)%nat ->
  edge_cross triangle sample i = 0 ->
  others_pass triangle sample i ->
  sample_test triangle sample = inclusive_edge i.
Proof.
  intros Hi Hz Ho. rewrite sample_test_edges.
  pose proof (on_edge_pass triangle sample i Hz) as Hp.
  destruct i as [|[|[|i]]]; try lia.
  - rewrite Hp, (Ho 1%nat), (Ho 2%nat) by lia. reflexivity.
  - rewrite Hp, (Ho 0%nat), (Ho 2%nat) by lia. reflexivity.
  - rewrite Hp, (Ho 0%nat), (Ho 1%nat) by lia. reflexivity.
Qed.

(** C5 (amended).  Let two triangles share an edge walked in opposite
    directions, edge [i] of [A] and edge [j] of [B], and let a sample lie on
    that edge and pass the two other edge tests of each triangle.  Then
    [sample_test] covers the sample for a triangle iff the shared edge is one
    of that triangle's [<=] edges (0->1 or 2->0).  So exactly one of the two
    calls returns true iff the shared edge is the [<] edge 1->2 of exactly
    one of the triangles. *)
Theorem shared_edge_coverage (A B : Triangle) (sample : Sample) (i j : nat) :
  (i < 3)%nat -> (j < 3)%nat ->
  shared_edge A i B j ->
  edge_cross A sample i = 0 ->
  others_pass A sample i -> others_pass B sample j ->
  sample_test A sample = inclusive_edge i /\
  sample_test B sample = inclusive_edge j /\
  (xorb (sample_test A sample) (sample_test B sample) = true <->
   (i = 1%nat /\ j <> 1%nat) \/ (i <> 1%nat /\ j = 1%nat)).
Proof.
  intros Hi Hj Hs Hz HA HB.
  pose proof (shared_edge_cross_zero A i B j sample Hs Hz) as HzB.
  rewrite (sample_test_on_edge A sample i Hi Hz HA).
  rewrite (sample_test_on_edge B sample j Hj HzB HB).
  split; [reflexivity|]. split; [reflexivity|].
  destruct i as [|[|[|i]]]; try lia; destruct j as [|[|[|j]]]; try lia;
    cbn; split; intros H; try discriminate H; try reflexivity; lia.
Qed.

(** Both triangles cover the midpoint (0,2) of the edge they share when it
    is edge 0->1 of each: the sample is counted twice. *)
Lemma shared_edge_double_cover :
  shared_edge tri_right 0 tri_left 0 /\
  edge_cross tri_right (mkSample 0 2) 0 = 0 /\
  others_pass tri_right (mkSample 0 2) 0 /\
  others_pass tri_left (mkSample 0 2) 0 /\
  sample_test tri_right (mkSample 0 2) = true /\
  sample_test tri_left (mkSample 0 2) = true /\
  xorb (sample_test tri_right (mkSample 0 2))
       (sample_test tri_left (mkSample 0 2)) <> true.
Proof.
  assert (Ho : forall T, edge_pass T (mkSample 0 2) 1 = true ->
                         edge_pass T (mkSample 0 2) 2 = true ->
                         others_pass T (mkSample 0 2) 0).
  { intros T H1 H2 k Hk Hne.
    destruct k as [|[|[|k]]]; try lia; assumption. }
  repeat split; try reflexivity.
  - apply Ho; reflexivity.
  - apply Ho; reflexivity.
  - discriminate.
Qed.

Lemma shared_edge_coverage_witness :
  (0 < 3)%nat /\ (1 < 3)%nat /\
  shared_edge tri_right 0 tri_left_rot 1 /\
  edge_cross tri_right (mkSample 0 2) 0 = 0 /\
  others_pass tri_right (mkSample 0 2) 0 /\
  others_pass tri_left_rot (mkSample 0 2) 1 /\
  sample_test tri_right (mkSample 0 2) = inclusive_edge 0 /\
  sample_test tri_left_rot (mkSample 0 2) = inclusive_edge 1 /\
  (xorb (sample_test tri_right (mkSample 0 2))
        (sample_test tri_left_rot (mkSample 0 2)) = true <->
   (0%nat = 1%nat /\ 1%nat <> 1%nat) \/ (0%nat <> 1%nat /\ 1%nat = 1%nat)).
Proof.
  assert (HA : others_pass tri_right (mkSample 0 2) 0).
  { intros k Hk Hne. destruct k as [|[|[|k]]]; try lia; reflexivity. }
  assert (HB : others_pass tri_left_rot (mkSample 0 2) 1).
  { intros k Hk Hne. destruct k as [|[|[|k]]]; try lia; reflexivity. }
  assert (Hs : shared_edge tri_right 0 tri_left_rot 1).
  { repeat split. }
  split; [lia|]. split; [lia|]. split; [exact Hs|].
  split; [reflexivity|]. split; [exact HA|]. split; [exact HB|].
  apply (shared_edge_coverage tri_right tri_left_rot (mkSample 0 2) 0 1);
    try lia; try assumption; reflexivity.
Defined.

(** ** Loops *)

Section Loops.

Context {ZBuff : Type}.
Implicit Types (st : RState ZBuff) (body : Z -> RState ZBuff -> outcome ZBuff).

(** A property of the state survives a loop, finished or not, when every
    iteration keeps it; [Q] is what is known of the loop variable. *)
Lemma for_loop_invariant (Q : Z -> Prop) (Inv : RState ZBuff -> Prop)
      hi step body :
  (forall j, Q j -> j <= hi -> Q (add32 j step)) ->
  (forall j st, Q j -> j <= hi -> Inv st -> Inv (state_of (body j st))) ->
  forall fuel i st, Q i -> Inv st ->
    Inv (state_of (for_loop fuel hi step body i st)).
Proof.
  intros HQ HB. induction fuel as [|fuel IH]; intros i st Hi Hst.
  - exact Hst.
  - cbn [for_loop]. destruct (Z.leb_spec i hi) as [Hle|Hgt]; [|exact Hst].
    specialize (HB i st Hi Hle Hst).
    destruct (body i st) as [st'|st'|st']; cbn [state_of] in *; try exact HB.
    apply IH; [apply HQ; assumption | exact HB].
Qed.

(** A loop whose bounds are empty leaves the state alone. *)
Lemma for_loop_empty fuel hi step body i st :
  hi < i -> state_of (for_loop fuel hi step body i st) = st /\
            ((0 < fuel)%nat -> for_loop fuel hi step body i st = Returned st).
Proof.
  intros H. destruct fuel as [|fuel]; cbn [for_loop].
  - split; [reflexivity | lia].
  - destruct (Z.leb_spec i hi); [lia|]. split; reflexivity.
Qed.

Lemma steps_next i hi step :
  0 < step -> i <= hi -> steps i hi step = S (steps (i + step) hi step).
Proof.
  intros Hs Hle. unfold steps.
  destruct (Z.leb_spec i hi); [|lia].
  destruct (Z.leb_spec (i + step) hi) as [H1|H1].
  - f_equal. replace (hi - i) with (hi - (i + step) + 1 * step) by lia.
    rewrite Z.div_add by lia.
    assert (0 <= (hi - (i + step)) / step) by (apply Z.div_pos; lia).
    lia.
  - f_equal. rewrite Z.div_small by lia. reflexivity.
Qed.

(** With a positive stride that never leaves [int], the loop visits the
    values of [walk] and needs one unit of fuel more than it has
    iterations. *)
Lemma for_loop_walk hi step body :
  0 < step -> hi + step < 2 ^ 31 ->
  forall fuel i st,
    - 2 ^ 31 <= i ->
    (steps i hi step < fuel)%nat ->
    for_loop fuel hi step body i st =
    run_list body (walk (steps i hi step) i step) st.
Proof.
  intros Hs Hhi. induction fuel as [|fuel IH]; intros i st Hi Hf; [lia|].
  cbn [for_loop]. destruct (Z.leb_spec i hi) as [Hle|Hgt].
  - rewrite (steps_next i hi step Hs Hle) in *. cbn [walk run_list].
    destruct (body i st) as [st'|st'|st']; try reflexivity.
    assert (Ha : add32 i step = i + step).
    { unfold add32. apply wrap32_id. unfold in_int. lia. }
    rewrite Ha. apply IH; lia.
  - unfold steps. destruct (Z.leb_spec i hi); [lia|]. reflexivity.
Qed.

Lemma in_walk n i step x :
  In x (walk n i step) <-> exists k, (k < n)%nat /\ x = i + Z.of_nat k * step.
Proof.
  revert i. induction n as [|n IH]; intros i; cbn [walk In].
  - split; [tauto | intros (k & Hk & _); lia].
  - rewrite IH. split.
    + intros [H | (k & Hk & Hx)].
      * exists 0%nat. split; [lia|]. lia.
      * exists (S k). split; [lia|]. lia.
    + intros (k & Hk & Hx). destruct k as [|k].
      * left. lia.
      * right. exists k. split; [lia|]. lia.
Qed.

End Loops.

(** ** Arithmetic of the loop body *)

Lemma wrap32_sub_wrap32 a b : wrap32 (a - wrap32 b) = wrap32 (a - b).
Proof.
  destruct (wrap32_eqm b) as [k Hk]. rewrite Hk. unfold wrap32.
  replace (a - (b + k * 2 ^ 32) + 2 ^ 31) with (a - b + 2 ^ 31 + (- k) * 2 ^ 32) by lia.
  rewrite Z.mod_add by lia. reflexivity.
Qed.

(** [sample.x - (hit_location.x << r_shift)] is the offset of the sample in
    its pixel, for the count the shifter sees. *)
Lemma pixel_offset x r :
  sub32 x (shl32 (sar32 x r) r) = x mod 2 ^ count32 r.
Proof.
  pose proof (count32_range r) as Hn.
  unfold sub32, shl32, sar32. set (n := count32 r) in *.
  rewrite wrap32_sub_wrap32.
  rewrite Z.shiftr_div_pow2, Z.shiftl_mul_pow2 by lia.
  assert (Hp : 0 < 2 ^ n) by (apply Z.pow_pos_nonneg; lia).
  assert (Hle : 2 ^ n <= 2 ^ 31) by (apply Z.pow_le_mono_r; lia).
  pose proof (Z.div_mod x (2 ^ n) ltac:(lia)).
  pose proof (Z.mod_pos_bound x (2 ^ n) Hp).
  replace (x - x / 2 ^ n * 2 ^ n) with (x mod 2 ^ n) by lia.
  apply wrap32_id. unfold in_int. lia.
Qed.

(** The division of lines 146-147 traps on a zero stride only. *)
Lemma subsample_trap x r step :
  div32 (sub32 x (shl32 (sar32 x r) r)) step = None -> step = 0.
Proof.
  rewrite pixel_offset. unfold div32.
  pose proof (count32_range r) as Hn.
  assert (Hp : 0 < 2 ^ count32 r) by (apply Z.pow_pos_nonneg; lia).
  pose proof (Z.mod_pos_bound x (2 ^ count32 r) Hp).
  destruct (Z.eqb_spec step 0); [auto|].
  destruct (Z.eqb_spec (x mod 2 ^ count32 r) (- 2 ^ 31)); [lia|].
  cbn [andb]. discriminate.
Qed.

Lemma subsample_index x r s q :
  0 <= s <= r -> r < 31 -> 0 <= x ->
  div32 (sub32 x (shl32 (sar32 x r) r)) (2 ^ (r - s)) = Some q ->
  0 <= sar32 x r /\ 0 <= q < 2 ^ s.
Proof.
  intros Hs Hr Hx. rewrite pixel_offset.
  unfold sar32. rewrite count32_id by lia.
  assert (Hp : 0 < 2 ^ r) by (apply Z.pow_pos_nonneg; lia).
  assert (Hc : 0 < 2 ^ (r - s)) by (apply Z.pow_pos_nonneg; lia).
  pose proof (Z.mod_pos_bound x (2 ^ r) Hp) as Hm.
  unfold div32.
  destruct (Z.eqb_spec (2 ^ (r - s)) 0); [lia|].
  destruct (Z.eqb_spec (2 ^ (r - s)) (-1)); [lia|].
  rewrite andb_false_r. intros E. injection E as <-.
  rewrite Z.shiftr_div_pow2 by lia.
  split; [apply Z.div_pos; lia|].
  rewrite Z.quot_div_nonneg by lia.
  split; [apply Z.div_pos; lia|].
  apply Z.div_lt_upper_bound; [lia|].
  rewrite <- Z.pow_add_r by lia.
  replace (r - s + s) with r by lia. lia.
Qed.

(** The corners of the box the loops walk. *)
Lemma walked_box triangle screen config :
  let b := get_bounding_box triangle screen config in
  let s := snapped_box triangle config in
  smp_x (lower_left b) = Z.max (smp_x (lower_left s)) 0 /\
  smp_y (lower_left b) = Z.max (smp_y (lower_left s)) 0 /\
  smp_x (upper_right b) = Z.min (smp_x (upper_right s)) (width screen) /\
  smp_y (upper_right b) = Z.min (smp_y (upper_right s)) (height screen).
Proof.
  cbv zeta. unfold get_bounding_box. fold (snapped_box triangle config).
  pose proof (clipped_fields screen (snapped_box triangle config)) as H.
  unfold bbox_check.
  match goal with |- context [if ?c then _ else _] => destruct c end;
    cbn [lower_left upper_right]; exact H.
Qed.

(** ** Geometry of the coverage test *)

(** Weights of one sign that annihilate three numbers put zero between
    the least and the greatest of them. *)
Lemma hull_axis c0 c1 c2 a b c :
  c0 <= 0 -> c1 < 0 -> c2 <= 0 ->
  c1 * a + c2 * b + c0 * c = 0 ->
  Z.min (Z.min a b) c <= 0 <= Z.max (Z.max a b) c.
Proof.
  intros H0 H1 H2 E. split.
  - destruct (Z_le_gt_dec (Z.min (Z.min a b) c) 0) as [|Hg]; [assumption|].
    assert (0 < a /\ 0 < b /\ 0 < c) as (Ha & Hb & Hc) by lia.
    assert (c1 * a < 0) by nia.
    assert (c2 * b <= 0) by nia.
    assert (c0 * c <= 0) by nia. lia.
  - destruct (Z_le_gt_dec 0 (Z.max (Z.max a b) c)) as [|Hg]; [assumption|].
    assert (a < 0 /\ b < 0 /\ c < 0) as (Ha & Hb & Hc) by lia.
    assert (0 < c1 * a) by nia.
    assert (0 <= c2 * b) by nia.
    assert (0 <= c0 * c) by nia. lia.
Qed.

(** A covered point lies in the box of the three vertices. *)
Lemma covered_ref_in_extent triangle px py :
  covered_ref triangle px py = true ->
  smp_x (lower_left (bbox_extent triangle)) <= px
    <= smp_x (upper_right (bbox_extent triangle)) /\
  smp_y (lower_left (bbox_extent triangle)) <= py
    <= smp_y (upper_right (bbox_extent triangle)).
Proof.
  unfold covered_ref. cbv zeta.
  rewrite !andb_true_iff, !Z.leb_le, Z.ltb_lt. intros [[H0 H1] H2].
  destruct (bbox_extent_fields triangle) as (Hlx & Hly & Hux & Huy).
  rewrite Hlx, Hly, Hux, Huy.
  set (ax := vtx_x (v triangle 0) - px) in *.
  set (ay := vtx_y (v triangle 0) - py) in *.
  set (bx := vtx_x (v triangle 1) - px) in *.
  set (b_y := vtx_y (v triangle 1) - py) in *.
  set (cx := vtx_x (v triangle 2) - px) in *.
  set (cy := vtx_y (v triangle 2) - py) in *.
  pose proof (hull_axis _ _ _ ax bx cx H0 H1 H2 ltac:(ring)) as Hx.
  pose proof (hull_axis _ _ _ ay b_y cy H0 H1 H2 ltac:(ring)) as Hy.
  unfold ax, bx, cx in Hx. unfold ay, b_y, cy in Hy. lia.
Qed.

Lemma mul_15_bits a b :
  - 2 ^ 15 < a < 2 ^ 15 -> - 2 ^ 15 < b < 2 ^ 15 ->
  - 2 ^ 30 < a * b < 2 ^ 30.
Proof. intros Ha Hb. nia. Qed.

(** Where the shifted vertices fit in 15 bits, the [int] arithmetic of
    [sample_test] is exact. *)
Lemma sample_test_exact triangle px py :
  (forall i, (i < 3)%nat ->
     - 2 ^ 15 < vtx_x (v triangle i) - px < 2 ^ 15 /\
     - 2 ^ 15 < vtx_y (v triangle i) - py < 2 ^ 15) ->
  sample_test triangle (mkSample px py) = covered_ref triangle px py.
Proof.
  intros H.
  destruct (H 0%nat ltac:(lia)) as [H0x H0y].
  destruct (H 1%nat ltac:(lia)) as [H1x H1y].
  destruct (H 2%nat ltac:(lia)) as [H2x H2y].
  unfold sample_test, covered_ref. cbn [smp_x smp_y]. cbv zeta.
  unfold sub32, mul32.
  rewrite !(wrap32_id (vtx_x _ - px)) by (unfold in_int; lia).
  rewrite !(wrap32_id (vtx_y _ - py)) by (unfold in_int; lia).
  pose proof (mul_15_bits _ _ H0x H1y). pose proof (mul_15_bits _ _ H1x H0y).
  pose proof (mul_15_bits _ _ H1x H2y). pose proof (mul_15_bits _ _ H2x H1y).
  pose proof (mul_15_bits _ _ H2x H0y). pose proof (mul_15_bits _ _ H0x H2y).
  rewrite !(wrap32_id (_ * _)) by (unfold in_int; lia).
  rewrite !wrap32_id by (unfold in_int; lia).
  reflexivity.
Qed.

(** No jitter from [ss_w_lg2 = 8] on: the test runs on the grid point. *)
Lemma jittered_at_grid config x y :
  8 <= ss_w_lg2 config < 32 -> in_int x -> in_int y ->
  jittered_at config x y = mkSample x y.
Proof.
  intros Hs Hx Hy. unfold jittered_at. cbv zeta.
  rewrite jitter_sample_zero by exact Hs. cbn [smp_x smp_y].
  assert (E : shl32 0 2 = 0) by reflexivity. rewrite E.
  unfold add32. rewrite !Z.add_0_r, !wrap32_id by assumption. reflexivity.
Qed.

(** ** Grid points *)

Lemma walk_as_map n i step :
  walk n i step = map (fun k => i + Z.of_nat k * step) (seq 0 n).
Proof.
  revert i. induction n as [|n IH]; intros i; [reflexivity|].
  cbn [walk seq map]. f_equal; [lia|].
  rewrite IH, <- seq_shift, map_map.
  apply map_ext. intros k. lia.
Qed.

Lemma length_walk n i step : length (walk n i step) = n.
Proof. revert i. induction n; intros; cbn [walk length]; auto. Qed.

Lemma NoDup_walk n i step : 0 < step -> NoDup (walk n i step).
Proof.
  intros Hs. revert i. induction n as [|n IH]; intros i; cbn [walk];
    constructor; [|apply IH].
  rewrite in_walk. intros (k & _ & E). nia.
Qed.

Lemma in_walked lo hi step x :
  0 < step ->
  In x (walked lo hi step) <-> lo <= x <= hi /\ (step | x - lo).
Proof.
  intros Hs. unfold walked. rewrite in_walk. unfold steps.
  destruct (Z.leb_spec lo hi) as [Hle|Hgt].
  - assert (Hq : 0 <= (hi - lo) / step) by (apply Z.div_pos; lia).
    pose proof (Z.mul_div_le (hi - lo) step Hs) as Hm.
    split.
    + intros (k & Hk & ->). split; [nia|]. exists (Z.of_nat k). lia.
    + intros [[H1 H2] [q Hq']].
      assert (0 <= q) by nia.
      assert (q <= (hi - lo) / step) by (apply Z.div_le_lower_bound; nia).
      exists (Z.to_nat q). split; [lia|]. rewrite Z2Nat.id by lia. lia.
  - split; [intros (k & Hk & _); lia | lia].
Qed.

(** The reference grid of an axis is the walk from 0 over the extent. *)
Lemma grid_axis_walked extent step :
  0 <= extent -> 0 < step -> grid_axis extent step = walked 0 extent step.
Proof.
  intros He Hs. unfold grid_axis, walked, steps.
  destruct (Z.leb_spec 0 extent); [|lia].
  rewrite walk_as_map, Z.sub_0_r, Nat.add_1_r.
  apply map_ext. intros k. lia.
Qed.

Lemma NoDup_list_prod {A B} (l : list A) (l' : list B) :
  NoDup l -> NoDup l' -> NoDup (list_prod l l').
Proof.
  intros Hl Hl'. induction Hl as [|a l Ha Hl IH]; cbn [list_prod];
    [constructor|].
  apply NoDup_app.
  - clear -Hl'. induction Hl' as [|b l' Hb Hl' IH]; cbn [map]; constructor;
      [|exact IH].
    rewrite in_map_iff. intros (b' & E & Hin). congruence.
  - exact IH.
  - intros [a' b'] H1 H2.
    apply in_map_iff in H1. destruct H1 as (b0 & E & _).
    apply in_prod_iff in H2. destruct H2 as [H2 _]. congruence.
Qed.

(** Two duplicate-free lists with the same filtered members have equally
    many of them. *)
Lemma filter_length_same {A} (P Q : A -> bool) (l l' : list A) :
  NoDup l -> NoDup l' ->
  (forall a, In a l /\ P a = true <-> In a l' /\ Q a = true) ->
  length (filter P l) = length (filter Q l').
Proof.
  intros Hl Hl' H. apply Permutation_length.
  apply NoDup_Permutation; try (apply NoDup_filter; assumption).
  intros a. rewrite !filter_In. apply H.
Qed.

(** On one axis: the walk of the clipped box picks, among the grid values
    of the screen, those between the snapped corners; and a grid value
    between the unsnapped corners is between the snapped ones. *)
Lemma axis_walk cell lo hi extent x :
  0 < cell -> 0 <= lo <= hi -> hi <= extent ->
  let a := cell * (lo / cell) in
  let b := cell * (hi / cell) in
  0 <= a /\ lo - cell < a <= lo /\ b <= hi /\
  (In x (walked a b cell) <-> In x (walked 0 extent cell) /\ a <= x <= b) /\
  (In x (walked 0 extent cell) -> lo <= x <= hi -> a <= x <= b).
Proof.
  intros Hc Hlo Hhi a b.
  pose proof (Z.mul_div_le lo cell Hc) as Ha.
  pose proof (Z.mul_div_le hi cell Hc) as Hb.
  pose proof (Z.div_mod lo cell ltac:(lia)) as Hdm.
  pose proof (Z.mod_pos_bound lo cell Hc) as Hmb.
  assert (Ha0 : 0 <= lo / cell) by (apply Z.div_pos; lia).
  assert (Hda : (cell | a)) by (exists (lo / cell); unfold a; lia).
  rewrite !in_walked by exact Hc. rewrite Z.sub_0_r.
  split; [unfold a; nia|]. split; [unfold a; lia|]. split; [unfold b; lia|].
  split.
  - split.
    + intros [Hx Hd]. split; [|exact Hx]. split; [unfold a, b in *; nia|].
      replace x with (x - a + a) by lia. apply Z.divide_add_r; assumption.
    + intros [[Hx Hd] Hab]. split; [exact Hab|].
      apply Z.divide_sub_r; assumption.
  - intros [Hx [q Hq]] Hl. split; [unfold a; lia|].
    assert (q <= hi / cell) by (apply Z.div_le_lower_bound; nia).
    unfold b. nia.
Qed.

(** ** The walk of the box against the whole grid *)

(** The vertices lie in the box built from them. *)
Lemma vertices_in_extent triangle i :
  (i < 3)%nat ->
  smp_x (lower_left (bbox_extent triangle)) <= vtx_x (v triangle i)
    <= smp_x (upper_right (bbox_extent triangle)) /\
  smp_y (lower_left (bbox_extent triangle)) <= vtx_y (v triangle i)
    <= smp_y (upper_right (bbox_extent triangle)).
Proof.
  intros Hi.
  destruct (bbox_extent_fields triangle) as (Hlx & Hly & Hux & Huy).
  rewrite Hlx, Hly, Hux, Huy.
  destruct i as [|[|[|i]]]; try lia.
Qed.

(** For a triangle inside the screen the loops walk from the floor of the
    least vertex coordinate to the floor of the greatest. *)
Lemma walked_box_inside triangle screen config :
  well_formed config -> inside_screen triangle screen ->
  let b := get_bounding_box triangle screen config in
  let e := bbox_extent triangle in
  let cell := ss_i config in
  smp_x (lower_left b) = cell * (smp_x (lower_left e) / cell) /\
  smp_y (lower_left b) = cell * (smp_y (lower_left e) / cell) /\
  smp_x (upper_right b) = cell * (smp_x (upper_right e) / cell) /\
  smp_y (upper_right b) = cell * (smp_y (upper_right e) / cell) /\
  0 < cell /\
  0 <= smp_x (lower_left e) <= smp_x (upper_right e) /\
  smp_x (upper_right e) <= width screen /\
  0 <= smp_y (lower_left e) <= smp_y (upper_right e) /\
  smp_y (upper_right e) <= height screen.
Proof.
  intros (Hs & Hr & Hi) Hin. cbv zeta.
  assert (Hc : 0 < ss_i config).
  { rewrite Hi. apply Z.pow_pos_nonneg; lia. }
  destruct (walked_box triangle screen config) as (Hlx & Hly & Hux & Huy).
  destruct (bbox_extent_fields triangle) as (Elx & Ely & Eux & Euy).
  destruct (Hin 0%nat ltac:(lia)) as [I0x I0y].
  destruct (Hin 1%nat ltac:(lia)) as [I1x I1y].
  destruct (Hin 2%nat ltac:(lia)) as [I2x I2y].
  rewrite Hlx, Hly, Hux, Huy.
  unfold snapped_box, bbox_snap. cbn [lower_left upper_right smp_x smp_y].
  rewrite !floor_ss_grid by lia. rewrite <- Hi.
  set (e := bbox_extent triangle) in *.
  pose proof (Z.mul_div_le (smp_x (lower_left e)) _ Hc).
  pose proof (Z.mul_div_le (smp_y (lower_left e)) _ Hc).
  pose proof (Z.mul_div_le (smp_x (upper_right e)) _ Hc).
  pose proof (Z.mul_div_le (smp_y (upper_right e)) _ Hc).
  assert (0 <= smp_x (lower_left e) / ss_i config) by (apply Z.div_pos; lia).
  assert (0 <= smp_y (lower_left e) / ss_i config) by (apply Z.div_pos; lia).
  repeat split; try lia; nia.
Qed.

(** On the walked grid points, with no jitter, the coverage test of the
    code is the exact test, and every covered grid point of the screen is
    walked: the loops count what the brute-force reference counts. *)
Lemma box_hits_brute_force triangle screen config :
  well_formed config -> 8 <= ss_w_lg2 config ->
  inside_screen triangle screen -> small_extent triangle config ->
  walk_in_range screen config ->
  let b := get_bounding_box triangle screen config in
  hits_on triangle config
    (walked (smp_x (lower_left b)) (smp_x (upper_right b)) (ss_i config))
    (walked (smp_y (lower_left b)) (smp_y (upper_right b)) (ss_i config))
  = brute_force_hits triangle screen config.
Proof.
  intros Hwf Hs8 Hin [Hex Hey] [Hrx Hry]. cbv zeta.
  destruct (walked_box_inside triangle screen config Hwf Hin)
    as (Hlx & Hly & Hux & Huy & Hc & Hx & HxW & Hy & HyH).
  destruct Hwf as (Hs & Hr & Hi).
  rewrite Hlx, Hly, Hux, Huy.
  set (e := bbox_extent triangle) in *.
  set (cell := ss_i config) in *.
  unfold hits_on, brute_force_hits. fold cell. f_equal.
  rewrite !grid_axis_walked by lia.
  apply filter_length_same.
  - apply NoDup_list_prod; apply NoDup_walk; exact Hc.
  - apply NoDup_list_prod; apply NoDup_walk; exact Hc.
  - intros [x y]. rewrite !in_prod_iff. cbn [fst snd].
    destruct (axis_walk cell _ _ (width screen) x Hc Hx HxW)
      as (Ax0 & Axl & Axh & Axw & Axe).
    destruct (axis_walk cell _ _ (height screen) y Hc Hy HyH)
      as (Ay0 & Ayl & Ayh & Ayw & Aye).
    assert (Hsame :
              cell * (smp_x (lower_left e) / cell) <= x
                <= cell * (smp_x (upper_right e) / cell) ->
              cell * (smp_y (lower_left e) / cell) <= y
                <= cell * (smp_y (upper_right e) / cell) ->
              sample_test triangle (jittered_at config x y)
              = covered_ref triangle x y).
    { intros Bx By.
      rewrite jittered_at_grid by (unfold in_int; lia).
      apply sample_test_exact. intros i Hi3.
      destruct (vertices_in_extent triangle i Hi3) as [Vx Vy].
      fold e in Vx, Vy. lia. }
    split.
    + intros [[Wx Wy] Ht].
      apply Axw in Wx. apply Ayw in Wy.
      destruct Wx as [Gx Bx], Wy as [Gy By].
      rewrite <- Hsame by assumption. auto.
    + intros [[Gx Gy] Ht].
      destruct (covered_ref_in_extent triangle x y Ht) as [Cx Cy].
      fold e in Cx, Cy.
      pose proof (Axe Gx Cx) as Bx. pose proof (Aye Gy Cy) as By.
      rewrite Hsame by assumption.
      split; [split|exact Ht]; [apply Axw | apply Ayw]; auto.
Qed.

(** The walked box holds fewer than [2^31] grid points. *)
Lemma box_hits_in_int triangle screen config :
  well_formed config -> inside_screen triangle screen ->
  small_extent triangle config ->
  let b := get_bounding_box triangle screen config in
  in_int
    (hits_on triangle config
       (walked (smp_x (lower_left b)) (smp_x (upper_right b)) (ss_i config))
       (walked (smp_y (lower_left b)) (smp_y (upper_right b)) (ss_i config))).
Proof.
  intros Hwf Hin [Hex Hey]. cbv zeta.
  destruct (walked_box_inside triangle screen config Hwf Hin)
    as (Hlx & Hly & Hux & Huy & Hc & Hx & HxW & Hy & HyH).
  rewrite Hlx, Hly, Hux, Huy.
  set (e := bbox_extent triangle) in *.
  set (cell := ss_i config) in *.
  assert (Hlen : forall lo hi,
             0 <= lo <= hi -> hi - lo + cell <= 2 ^ 15 ->
             Z.of_nat (length (walked (cell * (lo / cell)) (cell * (hi / cell))
                                      cell)) <= 2 ^ 15).
  { intros lo hi Hlh Hext. unfold walked. rewrite length_walk. unfold steps.
    pose proof (Z.mul_div_le lo cell Hc).
    pose proof (Z.mul_div_le hi cell Hc).
    pose proof (Z.div_mod lo cell ltac:(lia)).
    pose proof (Z.mod_pos_bound lo cell Hc).
    destruct (Z.leb_spec (cell * (lo / cell)) (cell * (hi / cell))); [|lia].
    assert (0 <= (cell * (hi / cell) - cell * (lo / cell)) / cell)
      by (apply Z.div_pos; lia).
    assert ((cell * (hi / cell) - cell * (lo / cell)) / cell < 2 ^ 15).
    { apply Z.div_lt_upper_bound; [lia|]. nia. }
    lia. }
  pose proof (Hlen _ _ Hx Hex) as Lx. pose proof (Hlen _ _ Hy Hey) as Ly.
  unfold hits_on.
  match goal with
  | |- in_int (Z.of_nat (length (filter ?P ?l))) =>
      pose proof (filter_length_le P l) as Hf
  end.
  rewrite length_prod in Hf.
  unfold in_int. split; [lia|].
  match type of Hf with
  | (_ <= ?a * ?b)%nat =>
      assert (Z.of_nat (a * b) <= 2 ^ 15 * 2 ^ 15)
        by (rewrite Nat2Z.inj_mul; apply Z.mul_le_mono_nonneg; lia)
  end.
  lia.
Qed.

(** ** Loops, unrolled and side by side *)

Section LoopRuns.

Context {ZBuff : Type}.
Implicit Types (st : RState ZBuff) (body : Z -> RState ZBuff -> outcome ZBuff).

Lemma run_list_ext body body' l st :
  (forall j s, body j s = body' j s) -> run_list body l st = run_list body' l st.
Proof.
  intros H. revert st. induction l as [|j l IH]; intros st; cbn [run_list].
  - reflexivity.
  - rewrite <- H. destruct (body j st); auto.
Qed.

(** A state property established step by step over a list of values. *)
Lemma run_list_returns (P : RState ZBuff -> Prop) body l :
  (forall j s, P s -> exists s', body j s = Returned s' /\ P s') ->
  forall st, P st -> exists st', run_list body l st = Returned st' /\ P st'.
Proof.
  intros H. induction l as [|j l IH]; intros st Hst; cbn [run_list].
  - eauto.
  - destruct (H j st Hst) as (s' & E & Hs'). rewrite E. apply IH. exact Hs'.
Qed.

(** With a zero stride a loop that has started never leaves. *)
Lemma for_loop_stuck hi body (P : RState ZBuff -> Prop) :
  (forall j s, P s -> exists s', body j s = Returned s' /\ P s') ->
  forall fuel j st, in_int j -> j <= hi -> P st ->
    exists s', for_loop fuel hi 0 body j st = OutOfFuel s'.
Proof.
  intros HB. induction fuel as [|fuel IH]; intros j st Hj Hle Hst;
    cbn [for_loop].
  - eauto.
  - destruct (Z.leb_spec j hi); [|lia].
    destruct (HB j st Hst) as (s' & E & Hs'). rewrite E.
    assert (Ha : add32 j 0 = j).
    { unfold add32. rewrite Z.add_0_r. apply wrap32_id. exact Hj. }
    rewrite Ha. apply IH; assumption.
Qed.

Lemma outcome_matches_weaken (stuck : Prop) (o1 o2 : outcome ZBuff) :
  outcome_matches False o1 o2 -> outcome_matches stuck o1 o2.
Proof.
  destruct o1, o2; cbn; tauto.
Qed.

(** Two loops in lockstep, the first without a buffer. *)
Lemma for_loop_matches (stuck : Prop) hi step body1 body2 :
  (stuck -> forall fuel j s1, in_int j -> j <= hi -> zbuff s1 = None ->
             exists s', for_loop fuel hi step body1 j s1 = OutOfFuel s') ->
  (forall j s1 s2, in_int j -> j <= hi -> null_matches s1 s2 ->
                   outcome_matches stuck (body1 j s1) (body2 j s2)) ->
  forall fuel i s1 s2, in_int i -> null_matches s1 s2 ->
    outcome_matches False (for_loop fuel hi step body1 i s1)
                          (for_loop fuel hi step body2 i s2).
Proof.
  intros Hstuck HB. induction fuel as [|fuel IH]; intros i s1 s2 Hi Hm.
  - exact I.
  - pose proof (Hstuck) as Hst.
    cbn [for_loop]. destruct (Z.leb_spec i hi) as [Hle|Hgt]; [|exact Hm].
    specialize (HB i s1 s2 Hi Hle Hm).
    destruct (body1 i s1) as [s1'|s1'|s1'] eqn:E1;
      destruct (body2 i s2) as [s2'|s2'|s2'] eqn:E2;
      cbn [outcome_matches] in HB; try contradiction; try exact I.
    + apply IH; [apply wrap32_range | exact HB].
    + destruct HB as [Hs Hz].
      destruct Hm as (_ & Hz1 & _).
      destruct (Hst Hs (S fuel) i s1 Hi Hle Hz1) as [s' Es'].
      cbn [for_loop] in Es'. destruct (Z.leb_spec i hi); [|lia].
      rewrite E1 in Es'. rewrite Es'. exact I.
Qed.

(** When the last grid value below [2^31] is still inside the bounds, the
    increment wraps and a loop that never traps runs out of any fuel. *)
Lemma for_loop_wraps hi step body :
  0 < step -> (step | 2 ^ 31) -> 2 ^ 31 - step <= hi ->
  (forall j st, exists s, body j st = Returned s \/ body j st = OutOfFuel s) ->
  forall fuel j st, in_int j -> (step | j) ->
    exists s, for_loop fuel hi step body j st = OutOfFuel s.
Proof.
  intros Hs [p Hp] Hhi HB. induction fuel as [|fuel IH]; intros j st Hj Hd;
    cbn [for_loop].
  - eauto.
  - assert (Hle : j <= hi).
    { destruct Hd as [q Hq]. unfold in_int in Hj.
      assert (q < p) by nia. nia. }
    destruct (Z.leb_spec j hi); [|lia].
    destruct (HB j st) as (s & [E | E]); rewrite E; [|eauto].
    apply IH; [apply wrap32_range|].
    unfold add32. destruct (wrap32_eqm (j + step)) as [k Hk]. rewrite Hk.
    destruct Hd as [q Hq]. exists (q + 1 + k * 2 * p).
    assert (H32 : 2 ^ 32 = 2 * (p * step)) by lia.
    rewrite H32, Hq. ring.
Qed.

End LoopRuns.

(** ** The orchestrator *)

Section RasterizerFacts.

Context {ZBuff : Type}.
Variable process_fragment : ZBuff -> Sample -> Sample -> Fragment -> ZBuff.

Implicit Types (st : RState ZBuff) (z : option ZBuff).

Ltac body_cases :=
  unfold sample_body;
  cbn [smp_x smp_y hit_count zbuff frag_calls samples_tested];
  match goal with
  | |- context [sample_test ?t ?s] => destruct (sample_test t s) eqn:?
  end;
  [ match goal with
    | |- context [match zbuff ?s with _ => _ end] => destruct (zbuff s) eqn:?
    end;
    [ match goal with
      | |- context [match div32 ?a ?b with _ => _ end] =>
          destruct (div32 a b) eqn:?
      end;
      [ match goal with
        | |- context [match div32 ?a ?b with _ => _ end] =>
            destruct (div32 a b) eqn:?
        end | ] | ] | ];
  cbn [state_of smp_x smp_y hit_count zbuff frag_calls samples_tested].

(** The body at [(x, y)] runs the coverage test on [jittered_at]. *)
Lemma sample_body_counts triangle config x y st :
  samples_tested (state_of (sample_body process_fragment triangle config x y st))
  = S (samples_tested st) /\
  hit_count (state_of (sample_body process_fragment triangle config x y st))
  = if sample_test triangle (jittered_at config x y)
    then add32 (hit_count st) 1 else hit_count st.
Proof.
  unfold jittered_at. cbv zeta. body_cases; split; reflexivity.
Qed.

(** Every call carries the flat fragment. *)
Lemma sample_body_flat triangle config x y st :
  Forall (flat_shaded triangle) (frag_calls st) ->
  Forall (flat_shaded triangle)
    (frag_calls (state_of (sample_body process_fragment triangle config x y st))).
Proof.
  intros H. body_cases; try exact H.
  apply Forall_app. split; [exact H|].
  constructor; [|constructor]. repeat split.
Qed.

(** The log is what the buffer saw. *)
Lemma sample_body_replay triangle config x y st z0 :
  zbuff st = option_map (replay process_fragment (frag_calls st)) z0 ->
  zbuff (state_of (sample_body process_fragment triangle config x y st)) =
  option_map
    (replay process_fragment
       (frag_calls (state_of (sample_body process_fragment triangle config x y st))))
    z0.
Proof.
  intros H. body_cases; try exact H.
  destruct z0 as [z0|]; cbn [option_map] in *; [|congruence].
  unfold replay in *. rewrite fold_left_app. cbn [fold_left].
  cbn [hit_location subsample fragment]. congruence.
Qed.

Lemma rasterize_invariant (Inv : RState ZBuff -> Prop) triangle screen config :
  (forall x y st, Inv st ->
     Inv (state_of (sample_body process_fragment triangle config x y st))) ->
  forall fuel z, Inv (init_state z) ->
    Inv (state_of (rasterize_triangle process_fragment fuel triangle z screen config)).
Proof.
  intros HB fuel z H0. unfold rasterize_triangle. cbv zeta.
  apply (for_loop_invariant (fun _ => True)); auto.
  intros x st _ _ Hst.
  apply (for_loop_invariant (fun _ => True)); auto.
Qed.

(** The buffer the run leaves behind is the initial one with the logged
    calls applied in order. *)
Lemma rasterize_replay fuel triangle z screen config :
  zbuff (state_of (rasterize_triangle process_fragment fuel triangle z screen config))
  = option_map
      (replay process_fragment
         (frag_calls
            (state_of (rasterize_triangle process_fragment fuel triangle z
                                          screen config))))
      z.
Proof.
  apply (rasterize_invariant
           (fun st => zbuff st =
                      option_map (replay process_fragment (frag_calls st)) z)).
  - intros x y st H. apply sample_body_replay. exact H.
  - destruct z; reflexivity.
Qed.

(** C9.  Every call to [process_fragment] that [rasterize_triangle] makes,
    in a run that returns as in one that does not, delivers a fragment whose
    [z], [R], [G], [B] are those of vertex 0 of the triangle, whichever
    pixel or subsample produced the hit. *)
Theorem fragments_flat_shaded
        (fuel : nat) (triangle : Triangle) (z : option ZBuff)
        (screen : Screen) (config : Config) :
  Forall (flat_shaded triangle)
    (frag_calls
       (state_of (rasterize_triangle process_fragment fuel triangle z screen config))).
Proof.
  apply (rasterize_invariant (fun st => Forall (flat_shaded triangle) (frag_calls st))).
  - intros x y st H. apply sample_body_flat. exact H.
  - constructor.
Qed.

(** A call made at a non-negative sample lands in a pixel. *)
Lemma sample_body_in_pixel triangle config x y st :
  well_formed config -> 0 <= x -> 0 <= y ->
  Forall (call_in_pixel config) (frag_calls st) ->
  Forall (call_in_pixel config)
    (frag_calls (state_of (sample_body process_fragment triangle config x y st))).
Proof.
  intros (Hs & Hr & Hi) Hx Hy H. body_cases; try exact H.
  apply Forall_app. split; [exact H|].
  constructor; [|constructor].
  rewrite Hi in *.
  match goal with
  | H1 : div32 _ _ = Some _, H2 : div32 _ _ = Some _ |- _ =>
      apply (subsample_index x) in H1; try lia;
      apply (subsample_index y) in H2; try lia
  end.
  unfold call_in_pixel. cbn [hit_location subsample smp_x smp_y]. lia.
Qed.

(** C10 (amended).  Under [screen.width >= 0], [screen.height >= 0],
    [0 <= ss_w_lg2 <= r_shift < 31], [ss_i = 2^(r_shift - ss_w_lg2)] and,
    in addition, [screen.width + ss_i < 2^31] and
    [screen.height + ss_i < 2^31] (the loop increments stay inside [int]),
    every call to [process_fragment] that [rasterize_triangle] makes
    delivers non-negative [hit_location] coordinates and [subsample]
    coordinates in [[0, 2^ss_w_lg2)] on each axis. *)
Theorem calls_in_pixel
        (fuel : nat) (triangle : Triangle) (z : option ZBuff)
        (screen : Screen) (config : Config) :
  0 <= width screen -> 0 <= height screen ->
  well_formed config -> walk_in_range screen config ->
  Forall (call_in_pixel config)
    (frag_calls
       (state_of (rasterize_triangle process_fragment fuel triangle z screen config))).
Proof.
  intros HW HH Hwf [Hrx Hry].
  assert (Hstep : 0 < ss_i config).
  { destruct Hwf as (Hs & Hr & Hi). rewrite Hi. apply Z.pow_pos_nonneg; lia. }
  destruct (walked_box triangle screen config) as (Hlx & Hly & Hux & Huy).
  unfold rasterize_triangle. cbv zeta.
  assert (Hnext : forall hi j, hi + ss_i config < 2 ^ 31 -> 0 <= j -> j <= hi ->
                               0 <= add32 j (ss_i config)).
  { intros hi j Hhi Hj Hle. unfold add32.
    rewrite wrap32_id by (unfold in_int; lia). lia. }
  apply (for_loop_invariant (fun j => 0 <= j)).
  - intros j Hj Hle. apply (Hnext (smp_x (upper_right
                                (get_bounding_box triangle screen config)))); lia.
  - intros x st Hx Hxle Hst.
    apply (for_loop_invariant (fun j => 0 <= j)).
    + intros j Hj Hle. apply (Hnext (smp_y (upper_right
                                (get_bounding_box triangle screen config)))); lia.
    + intros y st' Hy Hyle Hst'.
      apply sample_body_in_pixel; assumption.
    + lia.
    + exact Hst.
  - lia.
  - constructor.
Qed.

(** *** With and without a buffer *)

Lemma sample_body_matches triangle config x y s1 s2 :
  null_matches s1 s2 ->
  outcome_matches (ss_i config = 0)
    (sample_body process_fragment triangle config x y s1)
    (sample_body process_fragment triangle config x y s2).
Proof.
  intros (Hh & Hz & Hc). unfold sample_body.
  cbn [smp_x smp_y hit_count zbuff frag_calls samples_tested].
  rewrite Hz, Hh, Hc.
  match goal with
  | |- context [sample_test ?t ?s] => destruct (sample_test t s)
  end; [|repeat split].
  destruct (zbuff s2) as [zb|]; [|repeat split].
  match goal with
  | |- context [match div32 ?a ?b with _ => _ end] =>
      destruct (div32 a b) eqn:E1
  end.
  - match goal with
    | |- context [match div32 ?a ?b with _ => _ end] =>
        destruct (div32 a b) eqn:E2
    end.
    + repeat split.
    + split; [|reflexivity]. eapply subsample_trap. exact E2.
  - split; [|reflexivity]. eapply subsample_trap. exact E1.
Qed.

Lemma sample_body_null_returns triangle config x y s :
  zbuff s = None ->
  exists s', sample_body process_fragment triangle config x y s = Returned s' /\
             zbuff s' = None.
Proof.
  intros Hz. unfold sample_body.
  cbn [smp_x smp_y hit_count zbuff frag_calls samples_tested]. rewrite Hz.
  match goal with
  | |- context [sample_test ?t ?s] => destruct (sample_test t s)
  end; eexists; split; reflexivity || exact Hz.
Qed.

Lemma floor_ss_le val r s : floor_ss val r s <= val.
Proof.
  rewrite floor_ss_closed. cbv zeta.
  apply Z.mul_div_le. apply Z.pow_pos_nonneg; [lia | apply count32_range].
Qed.

(** The loops start inside [int]. *)
Lemma walked_box_in_int triangle screen config :
  int_triangle triangle ->
  in_int (smp_x (lower_left (get_bounding_box triangle screen config))) /\
  in_int (smp_y (lower_left (get_bounding_box triangle screen config))).
Proof.
  intros Hint.
  destruct (walked_box triangle screen config) as (Hlx & Hly & _ & _).
  destruct (bbox_extent_fields triangle) as (Hex & Hey & _ & _).
  destruct (Hint 0%nat ltac:(lia)) as [[_ H0x] [_ H0y]].
  rewrite Hlx, Hly. unfold snapped_box, bbox_snap.
  cbn [lower_left smp_x smp_y].
  pose proof (floor_ss_le (smp_x (lower_left (bbox_extent triangle)))
                          (r_shift config) (ss_w_lg2 config)).
  pose proof (floor_ss_le (smp_y (lower_left (bbox_extent triangle)))
                          (r_shift config) (ss_w_lg2 config)).
  unfold in_int. lia.
Qed.

Lemma rasterize_matches fuel triangle buf screen config :
  int_triangle triangle ->
  outcome_matches False
    (rasterize_triangle process_fragment fuel triangle None screen config)
    (rasterize_triangle process_fragment fuel triangle (Some buf) screen config).
Proof.
  intros Hint.
  destruct (walked_box_in_int triangle screen config Hint) as [Hix Hiy].
  unfold rasterize_triangle. cbv zeta.
  apply (for_loop_matches False).
  - contradiction.
  - intros x s1 s2 _ _ Hm.
    apply outcome_matches_weaken.
    apply (for_loop_matches (ss_i config = 0)).
    + intros Hz fuel' j s Hj Hle Hs. rewrite Hz.
      apply (for_loop_stuck _ _ (fun s => zbuff s = None)); try assumption.
      intros y s' Hs'. apply sample_body_null_returns. exact Hs'.
    + intros y s1' s2' _ _ Hm'. apply sample_body_matches. exact Hm'.
    + exact Hiy.
    + exact Hm.
  - exact Hix.
  - repeat split.
Qed.

(** Without a buffer nothing is delivered. *)
Lemma rasterize_null_silent fuel triangle screen config :
  let st := state_of (rasterize_triangle process_fragment fuel triangle None
                                         screen config) in
  zbuff st = None /\ frag_calls st = [].
Proof.
  cbv zeta.
  apply (rasterize_invariant (fun st => zbuff st = None /\ frag_calls st = [])).
  - intros x y st [Hz Hc].
    destruct (sample_body_null_returns triangle config x y st Hz) as (s' & E & Hz').
    split.
    + rewrite E. exact Hz'.
    + revert E. body_cases; intros E; try exact Hc; congruence.
  - split; reflexivity.
Qed.

(** *** Runs that return *)

Lemma sample_body_counted triangle config x y st n :
  ss_i config <> 0 -> counted st n ->
  exists st', sample_body process_fragment triangle config x y st = Returned st' /\
              counted st' (n + if sample_test triangle (jittered_at config x y)
                               then 1 else 0).
Proof.
  intros Hnz Hn. unfold counted in *. unfold jittered_at. cbv zeta.
  body_cases;
    try (match goal with
         | H : div32 _ _ = None |- _ => apply subsample_trap in H; contradiction
         end);
    eexists; (split; [reflexivity|]);
    cbn [hit_count]; rewrite ?Hn, ?Z.add_0_r;
    try reflexivity; unfold add32; apply wrap32_wrap32_add.
Qed.

Lemma hits_on_cons_y triangle config x y ys :
  hits_on triangle config [x] (y :: ys) =
  (if sample_test triangle (jittered_at config x y) then 1 else 0) +
  hits_on triangle config [x] ys.
Proof.
  unfold hits_on. cbn [list_prod map app filter fst snd].
  destruct (sample_test triangle (jittered_at config x y));
    cbn [length]; lia.
Qed.

Lemma filter_pair_length {A B} (P : A * B -> bool) (a : A) (l : list B) :
  length (filter P (map (pair a) l)) =
  length (filter (fun b => P (a, b)) l).
Proof.
  induction l as [|b l IH]; cbn [map filter]; [reflexivity|].
  destruct (P (a, b)); cbn [length]; rewrite IH; reflexivity.
Qed.

Lemma hits_on_cons_x triangle config x xs ys :
  hits_on triangle config (x :: xs) ys =
  hits_on triangle config [x] ys + hits_on triangle config xs ys.
Proof.
  unfold hits_on. cbn [list_prod].
  rewrite app_nil_r, filter_app, length_app. lia.
Qed.

Lemma column_counted triangle config x ys :
  ss_i config <> 0 ->
  forall st n, counted st n ->
  exists st', run_list (sample_body process_fragment triangle config x) ys st
              = Returned st' /\
              counted st' (n + hits_on triangle config [x] ys).
Proof.
  intros Hnz. induction ys as [|y ys IH]; intros st n Hn; cbn [run_list].
  - exists st. split; [reflexivity|].
    unfold hits_on. cbn. rewrite Z.add_0_r. exact Hn.
  - destruct (sample_body_counted triangle config x y st n Hnz Hn)
      as (st1 & E & H1).
    rewrite E. destruct (IH st1 _ H1) as (st' & E' & H').
    exists st'. split; [exact E'|].
    rewrite hits_on_cons_y. unfold counted in *. rewrite H'. f_equal. lia.
Qed.

Lemma grid_counted triangle config xs ys :
  ss_i config <> 0 ->
  forall st n, counted st n ->
  exists st',
    run_list (fun x s => run_list (sample_body process_fragment triangle config x) ys s)
             xs st = Returned st' /\
    counted st' (n + hits_on triangle config xs ys).
Proof.
  intros Hnz. induction xs as [|x xs IH]; intros st n Hn; cbn [run_list].
  - exists st. split; [reflexivity|].
    unfold hits_on. cbn. rewrite Z.add_0_r. exact Hn.
  - destruct (column_counted triangle config x ys Hnz st n Hn) as (st1 & E & H1).
    rewrite E. destruct (IH st1 _ H1) as (st' & E' & H').
    exists st'. split; [exact E'|].
    rewrite hits_on_cons_x. unfold counted in *. rewrite H'. f_equal. lia.
Qed.

(** With a positive stride that stays in [int] over the screen, the two
    loops walk the grid points of the clipped box, and fuel beyond the
    number of iterations of either loop is enough. *)
Lemma rasterize_unrolled fuel triangle z screen config :
  0 < ss_i config -> walk_in_range screen config ->
  let b := get_bounding_box triangle screen config in
  let xs := walked (smp_x (lower_left b)) (smp_x (upper_right b)) (ss_i config) in
  let ys := walked (smp_y (lower_left b)) (smp_y (upper_right b)) (ss_i config) in
  (length xs < fuel)%nat -> (length ys < fuel)%nat ->
  rasterize_triangle process_fragment fuel triangle z screen config =
  run_list (fun x s => run_list (sample_body process_fragment triangle config x) ys s)
           xs (init_state z).
Proof.
  intros Hstep [Hrx Hry]. cbv zeta.
  destruct (walked_box triangle screen config) as (Hlx & Hly & Hux & Huy).
  unfold walked. rewrite !length_walk. intros Hfx Hfy.
  unfold rasterize_triangle. cbv zeta.
  rewrite for_loop_walk; try lia.
  apply run_list_ext. intros x s.
  apply for_loop_walk; lia.
Qed.

Lemma rasterize_returns triangle z screen config :
  0 < ss_i config -> walk_in_range screen config ->
  let b := get_bounding_box triangle screen config in
  let xs := walked (smp_x (lower_left b)) (smp_x (upper_right b)) (ss_i config) in
  let ys := walked (smp_y (lower_left b)) (smp_y (upper_right b)) (ss_i config) in
  forall fuel, (S (Nat.max (length xs) (length ys)) <= fuel)%nat ->
    exists st,
      rasterize_triangle process_fragment fuel triangle z screen config
      = Returned st /\
      hit_count st = wrap32 (hits_on triangle config xs ys).
Proof.
  intros Hstep Hr. cbv zeta. intros fuel Hfuel.
  rewrite rasterize_unrolled; try assumption; try lia.
  apply (grid_counted triangle config _ _ ltac:(lia) (init_state z) 0).
  reflexivity.
Qed.

(** C8.  For every screen and [Config] and every triangle (of [int]
    coordinates), the call without a buffer returns exactly when the call
    with a buffer returns, and then with the same hit count; without a
    buffer no call to [process_fragment] is made.  With a positive stride
    that stays inside [int] over the screen both calls do return. *)
Theorem null_buffer_same_hits
        (triangle : Triangle) (buf : ZBuff) (screen : Screen) (config : Config) :
  int_triangle triangle ->
  (forall fuel,
      returned_hits
        (rasterize_triangle process_fragment fuel triangle None screen config) =
      returned_hits
        (rasterize_triangle process_fragment fuel triangle (Some buf) screen config)
      /\
      frag_calls
        (state_of (rasterize_triangle process_fragment fuel triangle None
                                      screen config)) = []) /\
  (0 < ss_i config -> walk_in_range screen config ->
   exists fuel0 h, forall fuel, (fuel0 <= fuel)%nat ->
     returned_hits
       (rasterize_triangle process_fragment fuel triangle None screen config)
     = Some h /\
     returned_hits
       (rasterize_triangle process_fragment fuel triangle (Some buf) screen config)
     = Some h).
Proof.
  intros Hint. split.
  - intros fuel. split.
    + pose proof (rasterize_matches fuel triangle buf screen config Hint) as Hm.
      destruct (rasterize_triangle process_fragment fuel triangle None screen config);
        destruct (rasterize_triangle process_fragment fuel triangle (Some buf)
                                     screen config);
        cbn [outcome_matches returned_hits] in Hm |- *;
        try contradiction; try reflexivity; try (match type of Hm with False /\ _ => destruct Hm as [[] _] end).
      destruct Hm as (Hh & _). rewrite Hh. reflexivity.
    + apply (rasterize_null_silent fuel triangle screen config).
  - intros Hstep Hr.
    pose proof (rasterize_returns triangle None screen config Hstep Hr) as H1.
    pose proof (rasterize_returns triangle (Some buf) screen config Hstep Hr) as H2.
    cbv zeta in H1, H2.
    eexists. eexists. intros fuel Hfuel.
    destruct (H1 fuel Hfuel) as (s1 & E1 & Hc1).
    destruct (H2 fuel Hfuel) as (s2 & E2 & Hc2).
    rewrite E1, E2. cbn [returned_hits]. rewrite Hc1, Hc2.
    split; reflexivity.
Qed.

(** *** Boxes off the screen *)

(** A triangle left of the screen has its snapped box off the screen. *)
Lemma left_of_screen_off_screen triangle screen config :
  (forall i, (i < 3)%nat -> vtx_x (v triangle i) < 0) ->
  off_screen (snapped_box triangle config) screen.
Proof.
  intros H. left.
  destruct (bbox_extent_fields triangle) as (_ & _ & Hux & _).
  unfold snapped_box, bbox_snap. cbn [upper_right smp_x].
  pose proof (floor_ss_le (smp_x (upper_right (bbox_extent triangle)))
                          (r_shift config) (ss_w_lg2 config)).
  pose proof (H 0%nat ltac:(lia)). pose proof (H 1%nat ltac:(lia)).
  pose proof (H 2%nat ltac:(lia)). lia.
Qed.

(** C6 (amended).  For every triangle whose snapped bounding box does not
    intersect the screen (in particular, by [left_of_screen_off_screen], any
    triangle all of whose vertices have [x < 0]), [get_bounding_box] returns
    [valid = false]; in every run of [rasterize_triangle] the body of the
    nested sample loop is executed zero times, the hit count stays 0 and no
    fragment is delivered, because the clipped lower left exceeds the upper
    right on some axis.  The call returns 0 when the box misses the screen
    in x (the outer loop makes no iteration), and in every case when
    [ss_i > 0] and the loop increments stay inside [int] over the screen. *)
Theorem off_screen_no_samples
        (triangle : Triangle) (z : option ZBuff) (screen : Screen) (config : Config) :
  off_screen (snapped_box triangle config) screen ->
  valid (get_bounding_box triangle screen config) = false /\
  (forall fuel,
      let st := state_of (rasterize_triangle process_fragment fuel triangle z
                                             screen config) in
      samples_tested st = 0%nat /\ hit_count st = 0 /\ frag_calls st = [] /\
      zbuff st = z) /\
  (smp_x (upper_right (snapped_box triangle config)) < 0 \/
   smp_x (lower_left (snapped_box triangle config)) > width screen ->
   forall fuel, (0 < fuel)%nat ->
     returned_hits (rasterize_triangle process_fragment fuel triangle z
                                       screen config) = Some 0) /\
  (0 < ss_i config -> walk_in_range screen config ->
   exists fuel0, forall fuel, (fuel0 <= fuel)%nat ->
     returned_hits (rasterize_triangle process_fragment fuel triangle z
                                       screen config) = Some 0).
Proof.
  intros Hoff.
  destruct (walked_box triangle screen config) as (Hlx & Hly & Hux & Huy).
  assert (Hstate : forall fuel,
             state_of (rasterize_triangle process_fragment fuel triangle z
                                          screen config) = init_state z).
  { intros fuel. unfold rasterize_triangle. cbv zeta.
    destruct Hoff as [Hx | [Hy | [Hx | Hy]]].
    - apply for_loop_empty. lia.
    - apply (for_loop_invariant (fun _ => True) (fun st => st = init_state z));
        auto.
      intros x st _ _ ->. apply for_loop_empty. lia.
    - apply for_loop_empty. lia.
    - apply (for_loop_invariant (fun _ => True) (fun st => st = init_state z));
        auto.
      intros x st _ _ ->. apply for_loop_empty. lia. }
  split; [|split; [|split]].
  - apply valid_false_clipped.
    destruct (clipped_fields screen (snapped_box triangle config))
      as (Hcx & Hcy & Hdx & Hdy).
    unfold off_screen in *. rewrite Hcx, Hcy, Hdx, Hdy. lia.
  - intros fuel. cbv zeta. rewrite Hstate. repeat split.
  - intros Hx fuel Hfuel.
    unfold rasterize_triangle. cbv zeta.
    match goal with
    | |- returned_hits (for_loop ?f ?hi ?s ?b ?i ?st) = _ =>
        destruct (for_loop_empty f hi s b i st ltac:(lia)) as [_ E]
    end.
    rewrite E by exact Hfuel. reflexivity.
  - intros Hstep Hr.
    pose proof (rasterize_returns triangle z screen config Hstep Hr) as H.
    cbv zeta in H. eexists. intros fuel Hfuel.
    destruct (H fuel Hfuel) as (st & E & _).
    pose proof (Hstate fuel) as Hs. rewrite E in Hs |- *. cbn [state_of] in Hs.
    subst st. reflexivity.
Qed.

(** *** The hit count against the brute-force reference *)

(** C2 (amended).  For every triangle fully inside the screen and every
    well-formed [Config] with [ss_w_lg2 >= 8] (from 8 on the hash mask is
    empty; at [ss_w_lg2 = 0] the jitter is four times the full 8-bit hash),
    the jitter added to every candidate sample is 0 and
    [rasterize_triangle] returns the number of subsample-grid points of the
    screen that the exact edge test puts inside the triangle or on an edge
    the fill rule selects, as the brute-force reference counts them.  The
    ranges keep the arithmetic inside [int]: the triangle's extent plus one
    grid cell is at most [2^15] on each axis, and the loop increments do not
    wrap over the screen. *)
Theorem rasterize_counts_grid_points
        (triangle : Triangle) (z : option ZBuff) (screen : Screen) (config : Config) :
  well_formed config -> 8 <= ss_w_lg2 config ->
  inside_screen triangle screen -> small_extent triangle config ->
  walk_in_range screen config ->
  (forall sample, jitter_sample sample (ss_w_lg2 config) = mkSample 0 0) /\
  exists fuel0, forall fuel, (fuel0 <= fuel)%nat ->
    returned_hits (rasterize_triangle process_fragment fuel triangle z screen config)
    = Some (brute_force_hits triangle screen config).
Proof.
  intros Hwf Hs8 Hin Hext Hr.
  assert (Hc : 0 < ss_i config).
  { destruct Hwf as (Hs & Hr' & Hi). rewrite Hi. apply Z.pow_pos_nonneg; lia. }
  split.
  - intros sample. apply jitter_sample_zero.
    destruct Hwf as (Hs & Hr' & _). lia.
  - pose proof (rasterize_returns triangle z screen config Hc Hr) as H.
    cbv zeta in H. eexists. intros fuel Hfuel.
    destruct (H fuel Hfuel) as (st & E & Hh).
    rewrite E. cbn [returned_hits]. rewrite Hh.
    rewrite wrap32_id by (apply box_hits_in_int; assumption).
    f_equal. apply box_hits_brute_force; assumption.
Qed.

End RasterizerFacts.

(** ** Runs on the test inputs *)

Ltac three_vertices :=
  let i := fresh "i" in
  let Hi := fresh "Hi" in
  intros i Hi; destruct i as [|[|[|i]]]; [ | | | lia]; vm_compute;
  intuition discriminate.

(** The loops agree with the reference on [tri_small]: 53 grid points. *)
Example rasterize_tri_small :
  returned_hits
    (rasterize_triangle record_fragment 20 tri_small None screen_64 config_no_jitter)
  = Some 53 /\
  brute_force_hits tri_small screen_64 config_no_jitter = 53.
Proof. split; vm_compute; reflexivity. Qed.

(** With a buffer, [tri_right] under [config_r1] delivers ten fragments,
    one per hit. *)
Example rasterize_tri_right :
  let o := rasterize_triangle record_fragment 20 tri_right (Some [])
                              screen_64 config_r1 in
  returned_hits o = Some 10 /\
  length (frag_calls (state_of o)) = 10%nat /\
  zbuff (state_of o) = Some (frag_calls (state_of o)).
Proof. cbv zeta. repeat split; vm_compute; reflexivity. Qed.

Lemma rasterize_counts_grid_points_witness :
  well_formed config_no_jitter /\ 8 <= ss_w_lg2 config_no_jitter /\
  inside_screen tri_small screen_64 /\ small_extent tri_small config_no_jitter /\
  walk_in_range screen_64 config_no_jitter /\
  (forall sample, jitter_sample sample (ss_w_lg2 config_no_jitter) = mkSample 0 0) /\
  exists fuel0, forall fuel, (fuel0 <= fuel)%nat ->
    returned_hits
      (rasterize_triangle record_fragment fuel tri_small None screen_64
                          config_no_jitter)
    = Some (brute_force_hits tri_small screen_64 config_no_jitter).
Proof.
  assert (H1 : well_formed config_no_jitter)
    by (vm_compute; intuition discriminate).
  assert (H2 : 8 <= ss_w_lg2 config_no_jitter) by (vm_compute; discriminate).
  assert (H3 : inside_screen tri_small screen_64) by three_vertices.
  assert (H4 : small_extent tri_small config_no_jitter)
    by (vm_compute; intuition discriminate).
  assert (H5 : walk_in_range screen_64 config_no_jitter)
    by (vm_compute; intuition discriminate).
  split; [exact H1|]. split; [exact H2|]. split; [exact H3|].
  split; [exact H4|]. split; [exact H5|].
  exact (rasterize_counts_grid_points record_fragment tri_small None screen_64
           config_no_jitter H1 H2 H3 H4 H5).
Defined.

(** At [ss_w_lg2 = 0] the mask keeps all eight bits of the hash.  On
    [tri_corner] the candidate sample (1024, 0) is moved by
    [(64 << 2, 0)] and leaves the triangle, and so does the candidate
    (0, 1024): the call returns 1 where the brute-force count of the grid
    points is 3. *)
Lemma jitter_at_ss_w_lg2_zero :
  well_formed config_r10 /\ ss_w_lg2 config_r10 = 0 /\
  inside_screen tri_corner screen_4px /\
  jitter_sample (mkSample 1024 0) (ss_w_lg2 config_r10) = mkSample 64 0 /\
  jittered_at config_r10 1024 0 = mkSample 1280 0 /\
  (forall fuel, (3 <= fuel)%nat ->
     returned_hits
       (rasterize_triangle record_fragment fuel tri_corner None screen_4px
                           config_r10) = Some 1) /\
  brute_force_hits tri_corner screen_4px config_r10 = 3.
Proof.
  split; [vm_compute; intuition discriminate|].
  split; [reflexivity|].
  split; [three_vertices|].
  split; [vm_compute; reflexivity|].
  split; [vm_compute; reflexivity|].
  split; [|vm_compute; reflexivity].
  intros fuel Hfuel.
  assert (Hs : 0 < ss_i config_r10) by (vm_compute; reflexivity).
  assert (Hr : walk_in_range screen_4px config_r10)
    by (vm_compute; intuition discriminate).
  pose proof (rasterize_returns record_fragment tri_corner None screen_4px
                config_r10 Hs Hr) as H.
  cbv zeta in H.
  destruct (H fuel) as (st & E & Hh).
  - vm_compute. apply Nat.leb_le. apply Nat.leb_le in Hfuel. exact Hfuel.
  - rewrite E. cbn [returned_hits]. rewrite Hh. vm_compute. reflexivity.
Qed.

Lemma off_screen_no_samples_witness :
  off_screen (snapped_box tri_off config_r4) screen_256 /\
  valid (get_bounding_box tri_off screen_256 config_r4) = false /\
  (forall fuel,
      let st := state_of (rasterize_triangle record_fragment fuel tri_off (Some [])
                                             screen_256 config_r4) in
      samples_tested st = 0%nat /\ hit_count st = 0 /\ frag_calls st = [] /\
      zbuff st = Some []) /\
  (forall fuel, (0 < fuel)%nat ->
     returned_hits (rasterize_triangle record_fragment fuel tri_off (Some [])
                                       screen_256 config_r4) = Some 0) /\
  (exists fuel0, forall fuel, (fuel0 <= fuel)%nat ->
     returned_hits (rasterize_triangle record_fragment fuel tri_off (Some [])
                                       screen_256 config_r4) = Some 0).
Proof.
  assert (H : off_screen (snapped_box tri_off config_r4) screen_256)
    by (left; vm_compute; reflexivity).
  destruct (off_screen_no_samples record_fragment tri_off (Some []) screen_256
              config_r4 H) as (Hv & Hst & Hx & Hret).
  split; [exact H|]. split; [exact Hv|]. split; [exact Hst|].
  split.
  - apply Hx. left. vm_compute. reflexivity.
  - apply Hret; vm_compute; intuition discriminate.
Defined.

(** Below the widest screen the outer loop walks x up to [2^31 - 16]; the
    next increment wraps to [-2^31], which is again within the bounds: the
    call never returns, although the box is off the screen and the [Config]
    is well formed. *)
Lemma off_screen_wide_never_returns :
  off_screen (snapped_box tri_below config_r4) screen_wide /\
  well_formed config_r4 /\
  valid (get_bounding_box tri_below screen_wide config_r4) = false /\
  forall fuel,
    returned_hits
      (rasterize_triangle record_fragment fuel tri_below None screen_wide config_r4)
    = None.
Proof.
  split; [right; left; vm_compute; reflexivity|].
  split; [vm_compute; intuition discriminate|].
  split; [vm_compute; reflexivity|].
  intros fuel. unfold rasterize_triangle. cbv zeta.
  assert (E : get_bounding_box tri_below screen_wide config_r4 =
              mkBBox (mkSample 0 0) (mkSample (2 ^ 31 - 16) (-64)) false)
    by (vm_compute; reflexivity).
  rewrite E. cbn [lower_left upper_right smp_x smp_y].
  change (ss_i config_r4) with 16.
  match goal with
  | |- returned_hits (for_loop ?f0 ?hi0 ?s0 ?b0 ?i0 ?st0) = _ =>
      destruct (for_loop_wraps hi0 s0 b0) with (fuel := f0) (j := i0) (st := st0)
        as [s' Es']
  end.
  - lia.
  - exists (2 ^ 27). reflexivity.
  - lia.
  - intros j st. destruct fuel as [|fuel]; cbn [for_loop].
    + exists st. right. reflexivity.
    + exists st. left. reflexivity.
  - unfold in_int. lia.
  - exists 0. reflexivity.
  - rewrite Es'. reflexivity.
Qed.

Lemma null_buffer_same_hits_witness :
  int_triangle tri_right /\
  (forall fuel,
      returned_hits
        (rasterize_triangle record_fragment fuel tri_right None screen_64 config_r1) =
      returned_hits
        (rasterize_triangle record_fragment fuel tri_right (Some []) screen_64
                            config_r1)
      /\
      frag_calls
        (state_of (rasterize_triangle record_fragment fuel tri_right None
                                      screen_64 config_r1)) = []) /\
  (exists fuel0 h, forall fuel, (fuel0 <= fuel)%nat ->
     returned_hits
       (rasterize_triangle record_fragment fuel tri_right None screen_64 config_r1)
     = Some h /\
     returned_hits
       (rasterize_triangle record_fragment fuel tri_right (Some []) screen_64
                           config_r1)
     = Some h).
Proof.
  assert (H : int_triangle tri_right) by three_vertices.
  destruct (null_buffer_same_hits record_fragment tri_right [] screen_64
              config_r1 H) as (Hsame & Hret).
  split; [exact H|]. split; [exact Hsame|].
  apply Hret; vm_compute; intuition discriminate.
Defined.

Lemma calls_in_pixel_witness :
  0 <= width screen_64 /\ 0 <= height screen_64 /\
  well_formed config_r1 /\ walk_in_range screen_64 config_r1 /\
  Forall (call_in_pixel config_r1)
    (frag_calls
       (state_of (rasterize_triangle record_fragment 20 tri_right (Some [])
                                     screen_64 config_r1))).
Proof.
  assert (H1 : 0 <= width screen_64) by (vm_compute; discriminate).
  assert (H2 : 0 <= height screen_64) by (vm_compute; discriminate).
  assert (H3 : well_formed config_r1) by (vm_compute; intuition discriminate).
  assert (H4 : walk_in_range screen_64 config_r1)
    by (vm_compute; intuition discriminate).
  split; [exact H1|]. split; [exact H2|]. split; [exact H3|]. split; [exact H4|].
  exact (calls_in_pixel record_fragment 20 tri_right (Some []) screen_64
           config_r1 H1 H2 H3 H4).
Defined.

(** On the largest screen the stride [2^30] takes the x loop from [2^30]
    to [2^31], which wraps to [-2^31] and is still within the bounds; the
    sample tested there is a hit, and the call delivered for it has
    [hit_location.x = -2].  The listed preconditions of the claim hold. *)
Lemma call_outside_pixel_on_wrap :
  0 <= width screen_full /\ 0 <= height screen_full /\
  well_formed config_r30 /\
  In (mkFragCall (mkSample (-2) 0) (mkSample 0 0) (flat_fragment tri_wide))
     (frag_calls
        (state_of (rasterize_triangle record_fragment 3 tri_wide (Some [])
                                      screen_full config_r30))) /\
  ~ Forall (call_in_pixel config_r30)
      (frag_calls
         (state_of (rasterize_triangle record_fragment 3 tri_wide (Some [])
                                       screen_full config_r30))).
Proof.
  assert (Hin : In (mkFragCall (mkSample (-2) 0) (mkSample 0 0)
                               (flat_fragment tri_wide))
                   (frag_calls
                      (state_of (rasterize_triangle record_fragment 3 tri_wide
                                   (Some []) screen_full config_r30)))).
  { vm_compute. right. right. left. reflexivity. }
  split; [vm_compute; discriminate|].
  split; [vm_compute; discriminate|].
  split; [vm_compute; intuition discriminate|].
  split; [exact Hin|].
  intros H. rewrite Forall_forall in H. apply H in Hin.
  destruct Hin as [Hneg _]. vm_compute in Hneg. apply Hneg. reflexivity.
Qed.

(** The same with a zero stride on an ordinary screen: the outer loop
    stays at [x = 0]. *)
Lemma off_screen_zero_stride_never_returns :
  off_screen (snapped_box tri_below (mkConfig 4 0 0)) screen_256 /\
  forall fuel,
    returned_hits
      (rasterize_triangle record_fragment fuel tri_below None screen_256
                          (mkConfig 4 0 0))
    = None.
Proof.
  split; [right; left; vm_compute; reflexivity|].
  intros fuel. unfold rasterize_triangle. cbv zeta.
  assert (E : get_bounding_box tri_below screen_256 (mkConfig 4 0 0) =
              mkBBox (mkSample 0 0) (mkSample 256 (-64)) false)
    by (vm_compute; reflexivity).
  rewrite E. cbn [lower_left upper_right smp_x smp_y ss_i].
  destruct fuel as [|fuel]; [reflexivity|].
  match goal with
  | |- returned_hits (for_loop ?f0 ?hi0 0 ?b0 ?i0 ?st0) = _ =>
      destruct (for_loop_stuck hi0 b0 (fun _ => True)) with
        (fuel := f0) (j := i0) (st := st0) as [s' Es']
  end.
  - intros j s _. exists s. split; [|exact I].
    cbn [for_loop]. reflexivity.
  - unfold in_int. lia.
  - lia.
  - exact I.
  - rewrite Es'. reflexivity.
Qed.

(** * Further properties of the code *)

(** ** The hash *)

Lemma lxor_fold a b c d e :
  Z.lxor (Z.lxor (Z.lxor a b) (Z.lxor c d)) (Z.lxor (Z.lxor b c) (Z.lxor d e))
  = Z.lxor a e.
Proof.
  apply Z.bits_inj'. intros n Hn. rewrite !Z.lxor_spec.
  destruct (Z.testbit a n), (Z.testbit b n), (Z.testbit c n),
    (Z.testbit d n), (Z.testbit e n); reflexivity.
Qed.

Lemma hash_40to8_fold arr40 shift :
  0 <= shift <= 8 ->
  hash_40to8 arr40 shift = Z.lxor (nth 0 arr40 0) (nth 4 arr40 0) mod 2 ^ (8 - shift).
Proof.
  intros H. unfold hash_40to8. rewrite lxor_fold, hash_mask by exact H.
  rewrite Z.land_ones by lia. unfold ushort_of_int.
  assert (Hp : 0 < 2 ^ (8 - shift)) by (apply Z.pow_pos_nonneg; lia).
  assert (Hle : 2 ^ (8 - shift) <= 2 ^ 8) by (apply Z.pow_le_mono_r; lia).
  pose proof (Z.mod_pos_bound (Z.lxor (nth 0 arr40 0) (nth 4 arr40 0))
                              (2 ^ (8 - shift)) Hp).
  apply Z.mod_small. lia.
Qed.

(** X1.  The XOR tree of [hash_40to8] cancels the three middle bytes: for
    [0 <= shift <= 8] the result is byte 0 XOR byte 4 of the array, reduced
    to its low [8 - shift] bits; bytes 1, 2 and 3 have no influence. *)
Theorem hash_40to8_outer_bytes (arr40 : list Z) (shift : Z) :
  0 <= shift <= 8 ->
  hash_40to8 arr40 shift
  = Z.lxor (nth 0 arr40 0) (nth 4 arr40 0) mod 2 ^ (8 - shift) /\
  forall b1 b2 b3,
    hash_40to8 [nth 0 arr40 0; b1; b2; b3; nth 4 arr40 0] shift
    = hash_40to8 arr40 shift.
Proof.
  intros H. split; [apply hash_40to8_fold; exact H|].
  intros b1 b2 b3. rewrite !hash_40to8_fold by exact H. reflexivity.
Qed.

Lemma hash_40to8_outer_bytes_witness :
  0 <= 2 <= 8 /\
  hash_40to8 [0x12; 0x34; 0x56; 0x78; 0x9a] 2
  = Z.lxor (nth 0 [0x12; 0x34; 0x56; 0x78; 0x9a] 0)
           (nth 4 [0x12; 0x34; 0x56; 0x78; 0x9a] 0) mod 2 ^ (8 - 2) /\
  forall b1 b2 b3,
    hash_40to8 [nth 0 [0x12; 0x34; 0x56; 0x78; 0x9a] 0; b1; b2; b3;
                nth 4 [0x12; 0x34; 0x56; 0x78; 0x9a] 0] 2
    = hash_40to8 [0x12; 0x34; 0x56; 0x78; 0x9a] 2.
Proof.
  split; [lia|].
  apply (hash_40to8_outer_bytes [0x12; 0x34; 0x56; 0x78; 0x9a] 2). lia.
Defined.

(** Bytes 0 and 4 of the word [(hi << 20) | lo] for two 12-bit halves. *)
Lemma packed_bytes hi lo :
  0 <= hi < 2 ^ 12 -> 0 <= lo < 2 ^ 12 ->
  byte_le (Z.lor (shl64 hi 20) lo) 0 = lo mod 2 ^ 8 /\
  byte_le (Z.lor (shl64 hi 20) lo) 4 = 0.
Proof.
  intros Hh Hl. unfold byte_le, shl64.
  rewrite Z.shiftl_mul_pow2 by lia.
  assert (Hw : wrap64 (hi * 2 ^ 20) = hi * 2 ^ 20).
  { unfold wrap64. rewrite Z.mod_small; lia. }
  rewrite Hw. change 0xff with (Z.ones 8).
  rewrite !Z.land_ones by lia.
  change (8 * Z.of_nat 0) with 0. change (8 * Z.of_nat 4) with 32.
  rewrite Z.shiftr_0_r, Z.shiftr_div_pow2 by lia.
  assert (Hz : Z.land (hi * 2 ^ 20) lo = 0).
  { apply Z.bits_inj'. intros n Hn. rewrite Z.land_spec, Z.bits_0.
    destruct (Z_lt_le_dec n 20) as [Hlt|Hge].
    - rewrite Z.mul_pow2_bits_low by lia. reflexivity.
    - rewrite (Z.bits_above_log2 lo n); [apply andb_false_r|lia|].
      destruct (Z.eq_dec lo 0) as [->|Hnz]; [cbn; lia|].
      apply Z.lt_le_trans with 12; [|lia].
      apply Z.log2_lt_pow2; lia. }
  assert (Hd : Z.lor (hi * 2 ^ 20) lo = hi * 2 ^ 20 + lo).
  { rewrite <- Z.lxor_lor, <- Z.add_nocarry_lxor by exact Hz. reflexivity. }
  rewrite Hd. split.
  - replace (hi * 2 ^ 20 + lo) with (lo + (hi * 2 ^ 12) * 2 ^ 8) by lia.
    apply Z.mod_add. lia.
  - rewrite Z.div_small by lia. reflexivity.
Qed.

(** X2.  On coordinates below [2^16] the "hash" is no hash: for
    [0 <= ss_w_lg2 <= 8], [jitter_sample] returns on each axis the low
    [8 - ss_w_lg2] bits of that very coordinate shifted right by 4; the
    other coordinate plays no part. *)
Theorem jitter_sample_low_bits (x y ss_w_lg2 : Z) :
  0 <= ss_w_lg2 <= 8 -> 0 <= x < 2 ^ 16 -> 0 <= y < 2 ^ 16 ->
  jitter_sample (mkSample x y) ss_w_lg2
  = mkSample ((x / 2 ^ 4) mod 2 ^ (8 - ss_w_lg2))
             ((y / 2 ^ 4) mod 2 ^ (8 - ss_w_lg2)).
Proof.
  intros Hs Hx Hy. unfold jitter_sample. cbn [smp_x smp_y].
  rewrite !hash_40to8_fold by exact Hs.
  unfold bytes_le. cbn [seq map nth].
  unfold sar32. rewrite count32_id by lia.
  rewrite !Z.shiftr_div_pow2 by lia.
  assert (Hx' : 0 <= x / 2 ^ 4 < 2 ^ 12).
  { split; [apply Z.div_pos; lia | apply Z.div_lt_upper_bound; lia]. }
  assert (Hy' : 0 <= y / 2 ^ 4 < 2 ^ 12).
  { split; [apply Z.div_pos; lia | apply Z.div_lt_upper_bound; lia]. }
  destruct (packed_bytes (y / 2 ^ 4) (x / 2 ^ 4) Hy' Hx') as [E0 E4].
  destruct (packed_bytes (x / 2 ^ 4) (y / 2 ^ 4) Hx' Hy') as [F0 F4].
  rewrite E0, E4, F0, F4, !Z.lxor_0_r.
  assert (Hdiv : (2 ^ (8 - ss_w_lg2) | 2 ^ 8)).
  { exists (2 ^ ss_w_lg2). rewrite <- Z.pow_add_r by lia. f_equal. lia. }
  rewrite !Z.mod_mod_divide by exact Hdiv.
  reflexivity.
Qed.

Lemma jitter_sample_low_bits_witness :
  0 <= 0 <= 8 /\ 0 <= 1024 < 2 ^ 16 /\ 0 <= 40000 < 2 ^ 16 /\
  jitter_sample (mkSample 1024 40000) 0
  = mkSample ((1024 / 2 ^ 4) mod 2 ^ (8 - 0)) ((40000 / 2 ^ 4) mod 2 ^ (8 - 0)).
Proof.
  split; [lia|]. split; [lia|]. split; [lia|].
  apply (jitter_sample_low_bits 1024 40000 0); lia.
Defined.

(** ** The jittered sample *)

Lemma shl32_two j : 0 <= j < 2 ^ 8 -> shl32 j 2 = 4 * j.
Proof.
  intros H. unfold shl32. rewrite count32_id by lia.
  rewrite Z.shiftl_mul_pow2 by lia.
  rewrite wrap32_id by (unfold in_int; lia). lia.
Qed.

(** The jitter added on each axis is a multiple of 4 below
    [2^(10 - ss_w_lg2)]. *)
Lemma jitter_offsets config x y :
  0 <= ss_w_lg2 config <= 8 ->
  exists jx jy,
    0 <= jx < 2 ^ (8 - ss_w_lg2 config) /\ 0 <= jy < 2 ^ (8 - ss_w_lg2 config) /\
    jittered_at config x y = mkSample (add32 x (4 * jx)) (add32 y (4 * jy)).
Proof.
  intros Hs. unfold jittered_at. cbv zeta.
  set (j := jitter_sample (mkSample x y) (ss_w_lg2 config)).
  assert (Hx : 0 <= smp_x j < 2 ^ (8 - ss_w_lg2 config))
    by (apply hash_40to8_range; exact Hs).
  assert (Hy : 0 <= smp_y j < 2 ^ (8 - ss_w_lg2 config))
    by (apply hash_40to8_range; exact Hs).
  assert (Hle : 2 ^ (8 - ss_w_lg2 config) <= 2 ^ 8)
    by (apply Z.pow_le_mono_r; lia).
  exists (smp_x j), (smp_y j).
  rewrite !shl32_two by lia. auto.
Qed.

(** X3.  With at least ten fractional bits the jitter keeps a sample in
    its own grid cell: for a well-formed [Config] with [ss_w_lg2 <= 8] and
    [r_shift >= 10], the sample tested in the iteration at [(x, y)] lies in
    [[x, x + ss_i) x [y, y + ss_i)], as long as the cell fits in [int]. *)
Theorem jittered_in_cell (config : Config) (x y : Z) :
  well_formed config -> ss_w_lg2 config <= 8 -> 10 <= r_shift config ->
  - 2 ^ 31 <= x -> x + ss_i config <= 2 ^ 31 ->
  - 2 ^ 31 <= y -> y + ss_i config <= 2 ^ 31 ->
  x <= smp_x (jittered_at config x y) < x + ss_i config /\
  y <= smp_y (jittered_at config x y) < y + ss_i config.
Proof.
  intros (Hs & Hr & Hi) Hs8 Hr10 Hx0 Hx1 Hy0 Hy1.
  destruct (jitter_offsets config x y ltac:(lia)) as (jx & jy & Hjx & Hjy & E).
  rewrite E. cbn [smp_x smp_y].
  assert (Hcell : 4 * 2 ^ (8 - ss_w_lg2 config) <= ss_i config).
  { rewrite Hi. change 4 with (2 ^ 2). rewrite <- Z.pow_add_r by lia.
    apply Z.pow_le_mono_r; lia. }
  unfold add32. rewrite !wrap32_id by (unfold in_int; lia). lia.
Qed.

Lemma jittered_in_cell_witness :
  well_formed config_r10 /\ ss_w_lg2 config_r10 <= 8 /\ 10 <= r_shift config_r10 /\
  - 2 ^ 31 <= 1024 /\ 1024 + ss_i config_r10 <= 2 ^ 31 /\
  - 2 ^ 31 <= 3072 /\ 3072 + ss_i config_r10 <= 2 ^ 31 /\
  1024 <= smp_x (jittered_at config_r10 1024 3072) < 1024 + ss_i config_r10 /\
  3072 <= smp_y (jittered_at config_r10 1024 3072) < 3072 + ss_i config_r10.
Proof.
  assert (H1 : well_formed config_r10) by (vm_compute; intuition discriminate).
  assert (H2 : ss_w_lg2 config_r10 <= 8) by (vm_compute; discriminate).
  assert (H3 : 10 <= r_shift config_r10) by (vm_compute; discriminate).
  assert (H4 : - 2 ^ 31 <= 1024) by lia.
  assert (H5 : 1024 + ss_i config_r10 <= 2 ^ 31) by (vm_compute; discriminate).
  assert (H6 : - 2 ^ 31 <= 3072) by lia.
  assert (H7 : 3072 + ss_i config_r10 <= 2 ^ 31) by (vm_compute; discriminate).
  repeat (split; [assumption|]).
  exact (jittered_in_cell config_r10 1024 3072 H1 H2 H3 H4 H5 H6 H7).
Defined.

(** ** The coverage test *)

Lemma sub32_add32 a b d : sub32 (add32 a d) (add32 b d) = sub32 a b.
Proof.
  unfold sub32, add32. rewrite wrap32_sub_wrap32.
  replace (wrap32 (a + d) - (b + d)) with (wrap32 (a + d) + (- (b + d))) by lia.
  rewrite wrap32_wrap32_add. f_equal. lia.
Qed.

(** X4.  The coverage test sees relative positions only: moving the three
    vertices and the sample by the same offset, wrap-around included,
    leaves the result unchanged. *)
Theorem sample_test_translate (dx dy : Z) (triangle : Triangle) (sample : Sample) :
  sample_test (translate_triangle dx dy triangle) (translate_sample dx dy sample)
  = sample_test triangle sample.
Proof.
  unfold sample_test, translate_triangle, translate_sample, translate_vertex.
  cbn [v tv0 tv1 tv2 vtx_x vtx_y smp_x smp_y].
  rewrite !sub32_add32. reflexivity.
Qed.

(** The three cross products of the exact test add up to the shoelace sum. *)
Lemma covered_ref_orientation triangle px py :
  covered_ref triangle px py = true -> orientation triangle < 0.
Proof.
  unfold covered_ref, orientation. cbv zeta.
  rewrite !andb_true_iff, !Z.leb_le, Z.ltb_lt. intros [[H0 H1] H2].
  match goal with
  | |- ?o < 0 =>
      replace o with
        ((vtx_x (v triangle 0) - px) * (vtx_y (v triangle 1) - py) -
         (vtx_x (v triangle 1) - px) * (vtx_y (v triangle 0) - py) +
         ((vtx_x (v triangle 1) - px) * (vtx_y (v triangle 2) - py) -
          (vtx_x (v triangle 2) - px) * (vtx_y (v triangle 1) - py)) +
         ((vtx_x (v triangle 2) - px) * (vtx_y (v triangle 0) - py) -
          (vtx_x (v triangle 0) - px) * (vtx_y (v triangle 2) - py))) by ring
  end.
  lia.
Qed.

Lemma near_reverse triangle px py :
  near triangle px py -> near (reverse_winding triangle) px py.
Proof.
  intros H i Hi. destruct i as [|[|[|i]]]; try lia; cbn [reverse_winding v tv0 tv1 tv2].
  - apply (H 0%nat); lia.
  - apply (H 2%nat); lia.
  - apply (H 1%nat); lia.
Qed.

(** X5.  Winding decides coverage.  Where the shifted vertices fit in 15
    bits (so that no product wraps), a sample is covered only by a triangle
    of negative shoelace sum; a degenerate triangle covers nothing, and the
    same triangle with its winding reversed does not cover the sample. *)
Theorem sample_test_winding (triangle : Triangle) (px py : Z) :
  near triangle px py ->
  sample_test triangle (mkSample px py) = true ->
  orientation triangle < 0 /\
  sample_test (reverse_winding triangle) (mkSample px py) = false.
Proof.
  intros Hn Hhit.
  rewrite (sample_test_exact triangle px py Hn) in Hhit.
  pose proof (covered_ref_orientation triangle px py Hhit) as Ho.
  split; [exact Ho|].
  rewrite (sample_test_exact _ px py (near_reverse _ _ _ Hn)).
  destruct (covered_ref (reverse_winding triangle) px py) eqn:E; [|reflexivity].
  apply covered_ref_orientation in E.
  unfold orientation in *. cbn [reverse_winding v tv0 tv1 tv2] in E, Ho. lia.
Qed.

Lemma sample_test_winding_witness :
  near tri_right 1 1 /\
  sample_test tri_right (mkSample 1 1) = true /\
  orientation tri_right < 0 /\
  sample_test (reverse_winding tri_right) (mkSample 1 1) = false.
Proof.
  assert (H1 : near tri_right 1 1) by three_vertices.
  assert (H2 : sample_test tri_right (mkSample 1 1) = true) by reflexivity.
  split; [exact H1|]. split; [exact H2|].
  exact (sample_test_winding tri_right 1 1 H1 H2).
Defined.

Lemma sub32_same a : sub32 a a = 0.
Proof. unfold sub32. rewrite Z.sub_diag. reflexivity. Qed.

Lemma mul32_0_l a : mul32 0 a = 0.
Proof. reflexivity. Qed.

Lemma mul32_0_r a : mul32 a 0 = 0.
Proof. unfold mul32. rewrite Z.mul_0_r. reflexivity. Qed.

(** X6.  The fill rule at the vertices, for every triangle: a sample on
    vertex 1 or on vertex 2 is never covered, and a sample on vertex 0 is
    covered exactly when the test of edge 1->2 passes there. *)
Theorem sample_test_at_vertices (triangle : Triangle) :
  sample_test triangle (sample_at (v triangle 1)) = false /\
  sample_test triangle (sample_at (v triangle 2)) = false /\
  sample_test triangle (sample_at (v triangle 0))
  = (edge_cross triangle (sample_at (v triangle 0)) 1 <? 0).
Proof.
  unfold sample_test, sample_at, edge_cross, cross, shifted.
  change (next_vertex 1) with 2%nat.
  cbn [smp_x smp_y fst snd].
  rewrite !sub32_same, !mul32_0_l, !mul32_0_r.
  change (sub32 0 0) with 0. cbn [Z.leb Z.ltb Z.compare].
  split; [reflexivity|]. split.
  - rewrite andb_false_r. reflexivity.
  - cbn [andb]. apply andb_true_r.
Qed.

(** ** The grid floor and the box *)

(** X7.  For [0 <= ss_w_lg2 <= r_shift < 32], [floor_ss] is monotone and
    idempotent, and it leaves exactly the multiples of the grid cell
    [2^(r_shift - ss_w_lg2)] where they are. *)
Theorem floor_ss_projection (a b r_shift ss_w_lg2 : Z) :
  0 <= ss_w_lg2 <= r_shift -> r_shift < 32 ->
  (a <= b -> floor_ss a r_shift ss_w_lg2 <= floor_ss b r_shift ss_w_lg2) /\
  floor_ss (floor_ss a r_shift ss_w_lg2) r_shift ss_w_lg2
  = floor_ss a r_shift ss_w_lg2 /\
  (floor_ss a r_shift ss_w_lg2 = a <-> (2 ^ (r_shift - ss_w_lg2) | a)).
Proof.
  intros H1 H2.
  split; [apply floor_ss_mono|].
  rewrite !floor_ss_grid by lia.
  set (cell := 2 ^ (r_shift - ss_w_lg2)).
  assert (Hc : 0 < cell) by (apply Z.pow_pos_nonneg; lia).
  split.
  - rewrite (Z.mul_comm cell (a / cell)), Z.div_mul by lia. lia.
  - split.
    + intros E. exists (a / cell). lia.
    + intros [q Hq]. subst a. rewrite Z.div_mul by lia. lia.
Qed.

Lemma floor_ss_projection_witness :
  0 <= 2 <= 10 /\ 10 < 32 /\
  (-700 <= 1300 -> floor_ss (-700) 10 2 <= floor_ss 1300 10 2) /\
  floor_ss (floor_ss (-700) 10 2) 10 2 = floor_ss (-700) 10 2 /\
  (floor_ss (-700) 10 2 = -700 <-> (2 ^ (10 - 2) | -700)).
Proof.
  split; [lia|]. split; [lia|].
  apply (floor_ss_projection (-700) 1300 10 2); lia.
Defined.

(** X8.  Lines 52-64 build the tight box of the three vertices: every
    vertex lies inside it, and each of its four sides passes through a
    vertex. *)
Theorem bbox_extent_tight (triangle : Triangle) :
  let e := bbox_extent triangle in
  (forall i, (i < 3)%nat ->
     smp_x (lower_left e) <= vtx_x (v triangle i) <= smp_x (upper_right e) /\
     smp_y (lower_left e) <= vtx_y (v triangle i) <= smp_y (upper_right e)) /\
  (exists i, (i < 3)%nat /\ vtx_x (v triangle i) = smp_x (lower_left e)) /\
  (exists i, (i < 3)%nat /\ vtx_y (v triangle i) = smp_y (lower_left e)) /\
  (exists i, (i < 3)%nat /\ vtx_x (v triangle i) = smp_x (upper_right e)) /\
  (exists i, (i < 3)%nat /\ vtx_y (v triangle i) = smp_y (upper_right e)) /\
  valid e = true.
Proof.
  cbv zeta. split; [apply vertices_in_extent|].
  destruct (bbox_extent_fields triangle) as (Hlx & Hly & Hux & Huy).
  rewrite Hlx, Hly, Hux, Huy.
  assert (Hmin : forall a b c, Z.min (Z.min a b) c = a \/
                               Z.min (Z.min a b) c = b \/
                               Z.min (Z.min a b) c = c) by (intros; lia).
  assert (Hmax : forall a b c, Z.max (Z.max a b) c = a \/
                               Z.max (Z.max a b) c = b \/
                               Z.max (Z.max a b) c = c) by (intros; lia).
  repeat split;
    try (match goal with
         | |- exists i, _ /\ _ = Z.min (Z.min ?a ?b) ?c =>
             destruct (Hmin a b c) as [E | [E | E]]; rewrite E;
             [exists 0%nat | exists 1%nat | exists 2%nat]; split; (lia || reflexivity)
         | |- exists i, _ /\ _ = Z.max (Z.max ?a ?b) ?c =>
             destruct (Hmax a b c) as [E | [E | E]]; rewrite E;
             [exists 0%nat | exists 1%nat | exists 2%nat]; split; (lia || reflexivity)
         end).
Qed.

(** [valid] says whether the clipped box is non-empty. *)
Lemma walked_box_valid
        (triangle : Triangle) (screen : Screen) (config : Config) :
  let b := get_bounding_box triangle screen config in
  valid b = true <->
  smp_x (lower_left b) <= smp_x (upper_right b) /\
  smp_y (lower_left b) <= smp_y (upper_right b).
Proof.
  cbv zeta.
  destruct (walked_box triangle screen config) as (Hlx & Hly & Hux & Huy).
  pose proof (snapped_box_ordered triangle config) as [Hox Hoy].
  pose proof (valid_false_clipped triangle screen config) as Hv.
  destruct (clipped_fields screen (snapped_box triangle config))
    as (Hcx & Hcy & Hdx & Hdy).
  unfold off_screen in Hv. rewrite Hcx, Hcy, Hdx, Hdy in Hv.
  rewrite Hlx, Hly, Hux, Huy.
  destruct (valid (get_bounding_box triangle screen config)).
  - split; [intros _|reflexivity].
    assert (Hn : ~ (true = false)) by discriminate.
    rewrite Hv in Hn. lia.
  - split; [discriminate|]. intros Hb.
    assert (Hf : false = false) by reflexivity.
    rewrite Hv in Hf. lia.
Qed.

(** X9.  The [valid] flag is the loop guard.  For every triangle, screen
    and [Config] the box returned has a non-negative lower left and an
    upper right within the screen extent, and [valid] is true exactly when
    the box is non-empty on both axes, that is, when the two loops of
    [rasterize_triangle] have a sample to visit. *)
Theorem valid_iff_box_nonempty
        (triangle : Triangle) (screen : Screen) (config : Config) :
  let b := get_bounding_box triangle screen config in
  0 <= smp_x (lower_left b) /\ 0 <= smp_y (lower_left b) /\
  smp_x (upper_right b) <= width screen /\
  smp_y (upper_right b) <= height screen /\
  (valid b = true <->
   smp_x (lower_left b) <= smp_x (upper_right b) /\
   smp_y (lower_left b) <= smp_y (upper_right b)).
Proof.
  cbv zeta.
  destruct (walked_box triangle screen config) as (Hlx & Hly & Hux & Huy).
  split; [rewrite Hlx; lia|]. split; [rewrite Hly; lia|].
  split; [rewrite Hux; lia|]. split; [rewrite Huy; lia|].
  apply walked_box_valid.
Qed.

(** X10.  For a well-formed [Config] and a triangle inside the screen the
    box is aligned to the grid and covers the triangle: its four
    coordinates are multiples of [ss_i], and every vertex lies at or above
    the lower left and less than one cell beyond the upper right. *)
Theorem bounding_box_covers
        (triangle : Triangle) (screen : Screen) (config : Config) :
  well_formed config -> inside_screen triangle screen ->
  let b := get_bounding_box triangle screen config in
  valid b = true /\
  (ss_i config | smp_x (lower_left b)) /\ (ss_i config | smp_y (lower_left b)) /\
  (ss_i config | smp_x (upper_right b)) /\ (ss_i config | smp_y (upper_right b)) /\
  forall i, (i < 3)%nat ->
    smp_x (lower_left b) <= vtx_x (v triangle i)
      < smp_x (upper_right b) + ss_i config /\
    smp_y (lower_left b) <= vtx_y (v triangle i)
      < smp_y (upper_right b) + ss_i config.
Proof.
  intros Hwf Hin. cbv zeta.
  destruct (walked_box_inside triangle screen config Hwf Hin)
    as (Hlx & Hly & Hux & Huy & Hc & Hx & HxW & Hy & HyH).
  set (e := bbox_extent triangle) in *.
  set (cell := ss_i config) in *.
  assert (Hfl : forall a, 0 <= a -> 0 <= cell * (a / cell) <= a /\
                                    a < cell * (a / cell) + cell).
  { intros a Ha.
    pose proof (Z.div_mod a cell ltac:(lia)).
    pose proof (Z.mod_pos_bound a cell Hc).
    assert (0 <= a / cell) by (apply Z.div_pos; lia). nia. }
  pose proof (Hfl _ (proj1 Hx)) as F1. pose proof (Hfl _ (proj1 Hy)) as F2.
  pose proof (Hfl (smp_x (upper_right e)) ltac:(lia)) as F3.
  pose proof (Hfl (smp_y (upper_right e)) ltac:(lia)) as F4.
  assert (Hmono : forall a b, a <= b -> cell * (a / cell) <= cell * (b / cell)).
  { intros a b Hab. apply Z.mul_le_mono_nonneg_l; [lia|].
    apply Z.div_le_mono; lia. }
  pose proof (Hmono _ _ (proj2 Hx)) as M1. pose proof (Hmono _ _ (proj2 Hy)) as M2.
  split.
  - destruct (valid (get_bounding_box triangle screen config)) eqn:Ev;
      [reflexivity|].
    apply valid_false_clipped in Ev.
    destruct (clipped_fields screen (snapped_box triangle config))
      as (Hcx & Hcy & Hdx & Hdy).
    destruct (walked_box triangle screen config) as (Wlx & Wly & Wux & Wuy).
    unfold off_screen in Ev. rewrite Hcx, Hcy, Hdx, Hdy in Ev.
    rewrite <- Wlx, <- Wly, <- Wux, <- Wuy in Ev.
    rewrite Hlx, Hly, Hux, Huy in Ev. lia.
  - rewrite Hlx, Hly, Hux, Huy.
    repeat (split; [eexists; rewrite Z.mul_comm; reflexivity|]).
    intros i Hi.
    destruct (vertices_in_extent triangle i Hi) as [Vx Vy].
    fold e in Vx, Vy. lia.
Qed.

Lemma bounding_box_covers_witness :
  well_formed config_no_jitter /\ inside_screen tri_small screen_64 /\
  let b := get_bounding_box tri_small screen_64 config_no_jitter in
  valid b = true /\
  (ss_i config_no_jitter | smp_x (lower_left b)) /\
  (ss_i config_no_jitter | smp_y (lower_left b)) /\
  (ss_i config_no_jitter | smp_x (upper_right b)) /\
  (ss_i config_no_jitter | smp_y (upper_right b)) /\
  forall i, (i < 3)%nat ->
    smp_x (lower_left b) <= vtx_x (v tri_small i)
      < smp_x (upper_right b) + ss_i config_no_jitter /\
    smp_y (lower_left b) <= vtx_y (v tri_small i)
      < smp_y (upper_right b) + ss_i config_no_jitter.
Proof.
  assert (H1 : well_formed config_no_jitter)
    by (vm_compute; intuition discriminate).
  assert (H2 : inside_screen tri_small screen_64) by three_vertices.
  split; [exact H1|]. split; [exact H2|].
  exact (bounding_box_covers tri_small screen_64 config_no_jitter H1 H2).
Defined.

(** ** The orchestrator, further *)

Section OrchestratorFacts.

Context {ZBuff : Type}.
Variable process_fragment : ZBuff -> Sample -> Sample -> Fragment -> ZBuff.

Implicit Types (st : RState ZBuff).

(** What the first iteration establishes and every iteration keeps holds
    when the loop stops, however it stops. *)
Lemma for_loop_reaches (P : RState ZBuff -> Prop) fuel hi step
      (body : Z -> RState ZBuff -> outcome ZBuff) i st :
  (0 < fuel)%nat -> i <= hi ->
  P (state_of (body i st)) ->
  (forall j s, P s -> P (state_of (body j s))) ->
  P (state_of (for_loop fuel hi step body i st)).
Proof.
  intros Hf Hle H1 Hk. destruct fuel as [|fuel]; [lia|].
  cbn [for_loop]. destruct (Z.leb_spec i hi); [|lia].
  destruct (body i st) as [s|s|s]; cbn [state_of] in *; try exact H1.
  apply (for_loop_invariant (fun _ => True)); auto.
Qed.

Lemma rasterize_empty_box fuel triangle z screen config :
  let b := get_bounding_box triangle screen config in
  smp_x (upper_right b) < smp_x (lower_left b) \/
  smp_y (upper_right b) < smp_y (lower_left b) ->
  state_of (rasterize_triangle process_fragment fuel triangle z screen config)
  = init_state z.
Proof.
  cbv zeta. intros H. unfold rasterize_triangle. cbv zeta.
  destruct H as [H | H].
  - apply for_loop_empty. exact H.
  - apply (for_loop_invariant (fun _ => True) (fun st => st = init_state z));
      auto.
    intros x st _ _ ->. apply for_loop_empty. exact H.
Qed.

(** X11.  [rasterize_triangle] never reads the [valid] flag, yet obeys
    it: given any fuel at all, the loop body runs at least once exactly
    when [get_bounding_box] reports [valid = true]; on an invalid box the
    state is untouched. *)
Theorem body_runs_iff_valid
        (fuel : nat) (triangle : Triangle) (z : option ZBuff)
        (screen : Screen) (config : Config) :
  (0 < fuel)%nat ->
  let o := rasterize_triangle process_fragment fuel triangle z screen config in
  ((0 < samples_tested (state_of o))%nat <->
   valid (get_bounding_box triangle screen config) = true) /\
  (valid (get_bounding_box triangle screen config) = false ->
   state_of o = init_state z).
Proof.
  intros Hf. cbv zeta.
  pose proof (walked_box_valid triangle screen config) as Hv. cbv zeta in Hv.
  assert (Hone : forall x y st,
             (0 < samples_tested
                    (state_of (sample_body process_fragment triangle config x y st)))%nat).
  { intros x y st.
    destruct (sample_body_counts process_fragment triangle config x y st) as [E _].
    rewrite E. lia. }
  destruct (valid (get_bounding_box triangle screen config)) eqn:Ev.
  - split; [|discriminate]. split; [reflexivity|]. intros _.
    destruct Hv as [Hv _]. destruct (Hv eq_refl) as [Hx Hy].
    unfold rasterize_triangle. cbv zeta.
    apply for_loop_reaches; try assumption.
    + apply for_loop_reaches; try assumption; [apply Hone|].
      intros j s _. apply Hone.
    + intros x s Hs.
      apply (for_loop_invariant (fun _ => True)); auto.
  - assert (Hempty : state_of (rasterize_triangle process_fragment fuel triangle z
                                                  screen config) = init_state z).
    { apply rasterize_empty_box. cbv zeta.
      destruct (Z_lt_le_dec (smp_x (upper_right (get_bounding_box triangle screen config)))
                            (smp_x (lower_left (get_bounding_box triangle screen config))));
        [left; assumption|].
      destruct (Z_lt_le_dec (smp_y (upper_right (get_bounding_box triangle screen config)))
                            (smp_y (lower_left (get_bounding_box triangle screen config))));
        [right; assumption|].
      destruct Hv as [_ Hv].
      assert (Hc : false = true) by (apply Hv; split; assumption).
      discriminate Hc. }
    split; [|intros _; exact Hempty].
    rewrite Hempty. cbn [init_state samples_tested]. split; [lia|discriminate].
Qed.

(** *** Fragments in scan order *)

Lemma div32_some a b q : div32 a b = Some q -> q = Z.quot a b.
Proof.
  unfold div32. destruct (b =? 0); [discriminate|].
  destruct ((a =? - 2 ^ 31) && (b =? -1)); [discriminate|].
  intros E. injection E as <-. reflexivity.
Qed.

(** One iteration with a buffer: the body returns, and a hit delivers
    [call_of] the nominal sample. *)
Lemma sample_body_delivers triangle config x y st buf :
  ss_i config <> 0 -> zbuff st = Some buf ->
  exists st' buf',
    sample_body process_fragment triangle config x y st = Returned st' /\
    zbuff st' = Some buf' /\
    samples_tested st' = S (samples_tested st) /\
    frag_calls st' =
    frag_calls st ++
      (if sample_test triangle (jittered_at config x y)
       then [call_of triangle config (x, y)] else []).
Proof.
  intros Hnz Hz. unfold jittered_at. cbv zeta. unfold sample_body.
  cbn [smp_x smp_y hit_count zbuff frag_calls samples_tested]. rewrite Hz.
  match goal with
  | |- context [sample_test ?t ?s] => destruct (sample_test t s)
  end.
  - match goal with
    | |- context [match div32 ?a ?b with _ => _ end] =>
        destruct (div32 a b) as [qx|] eqn:E1;
          [|apply subsample_trap in E1; contradiction]
    end.
    match goal with
    | |- context [match div32 ?a ?b with _ => _ end] =>
        destruct (div32 a b) as [qy|] eqn:E2;
          [|apply subsample_trap in E2; contradiction]
    end.
    apply div32_some in E1, E2. subst qx qy.
    eexists. eexists. split; [reflexivity|].
    cbn [zbuff samples_tested frag_calls]. repeat split.
  - eexists. eexists. split; [reflexivity|].
    cbn [zbuff samples_tested frag_calls]. rewrite app_nil_r. repeat split.
Qed.

Lemma hit_samples_cons_y triangle config x y ys :
  hit_samples triangle config [x] (y :: ys) =
  (if sample_test triangle (jittered_at config x y) then [(x, y)] else []) ++
  hit_samples triangle config [x] ys.
Proof.
  unfold hit_samples. cbn [list_prod map app filter fst snd].
  destruct (sample_test triangle (jittered_at config x y)); reflexivity.
Qed.

Lemma hit_samples_cons_x triangle config x xs ys :
  hit_samples triangle config (x :: xs) ys =
  hit_samples triangle config [x] ys ++ hit_samples triangle config xs ys.
Proof.
  unfold hit_samples. cbn [list_prod]. rewrite app_nil_r, filter_app.
  reflexivity.
Qed.

Lemma column_delivers triangle config x ys :
  ss_i config <> 0 ->
  forall st buf, zbuff st = Some buf ->
  exists st' buf',
    run_list (sample_body process_fragment triangle config x) ys st = Returned st' /\
    zbuff st' = Some buf' /\
    samples_tested st' = (samples_tested st + length ys)%nat /\
    frag_calls st' =
    frag_calls st ++
      map (call_of triangle config) (hit_samples triangle config [x] ys).
Proof.
  intros Hnz. induction ys as [|y ys IH]; intros st buf Hz; cbn [run_list].
  - exists st, buf. split; [reflexivity|]. split; [exact Hz|].
    cbn [length]. rewrite Nat.add_0_r. unfold hit_samples. cbn.
    rewrite app_nil_r. split; reflexivity.
  - destruct (sample_body_delivers triangle config x y st buf Hnz Hz)
      as (s1 & b1 & E & Hz1 & Ht1 & Hc1).
    rewrite E. destruct (IH s1 b1 Hz1) as (s2 & b2 & E2 & Hz2 & Ht2 & Hc2).
    exists s2, b2. split; [exact E2|]. split; [exact Hz2|].
    split; [cbn [length]; lia|].
    rewrite Hc2, Hc1, hit_samples_cons_y, map_app, <- app_assoc.
    destruct (sample_test triangle (jittered_at config x y)); reflexivity.
Qed.

Lemma grid_delivers triangle config xs ys :
  ss_i config <> 0 ->
  forall st buf, zbuff st = Some buf ->
  exists st' buf',
    run_list
      (fun x s => run_list (sample_body process_fragment triangle config x) ys s)
      xs st = Returned st' /\
    zbuff st' = Some buf' /\
    samples_tested st' = (samples_tested st + length xs * length ys)%nat /\
    frag_calls st' =
    frag_calls st ++
      map (call_of triangle config) (hit_samples triangle config xs ys).
Proof.
  intros Hnz. induction xs as [|x xs IH]; intros st buf Hz; cbn [run_list].
  - exists st, buf. split; [reflexivity|]. split; [exact Hz|].
    cbn [length Nat.mul]. rewrite Nat.add_0_r. unfold hit_samples. cbn.
    rewrite app_nil_r. split; reflexivity.
  - destruct (column_delivers triangle config x ys Hnz st buf Hz)
      as (s1 & b1 & E & Hz1 & Ht1 & Hc1).
    rewrite E. destruct (IH s1 b1 Hz1) as (s2 & b2 & E2 & Hz2 & Ht2 & Hc2).
    exists s2, b2. split; [exact E2|]. split; [exact Hz2|].
    split; [cbn [length]; lia|].
    rewrite hit_samples_cons_x, map_app, Hc2, Hc1, <- app_assoc. reflexivity.
Qed.

(** What a call with a buffer comes to, once it returns. *)
Lemma rasterize_delivers triangle buf screen config :
  0 < ss_i config -> walk_in_range screen config ->
  let b := get_bounding_box triangle screen config in
  let xs := walked (smp_x (lower_left b)) (smp_x (upper_right b)) (ss_i config) in
  let ys := walked (smp_y (lower_left b)) (smp_y (upper_right b)) (ss_i config) in
  forall fuel, (S (Nat.max (length xs) (length ys)) <= fuel)%nat ->
    exists st,
      rasterize_triangle process_fragment fuel triangle (Some buf) screen config
      = Returned st /\
      frag_calls st = map (call_of triangle config)
                          (hit_samples triangle config xs ys) /\
      samples_tested st = (length xs * length ys)%nat /\
      hit_count st = wrap32 (Z.of_nat (length (frag_calls st))) /\
      zbuff st = Some (replay process_fragment (frag_calls st) buf).
Proof.
  intros Hstep Hr. cbv zeta. intros fuel Hfuel.
  pose proof (rasterize_returns process_fragment triangle (Some buf) screen config
                Hstep Hr) as Hret.
  cbv zeta in Hret. destruct (Hret fuel Hfuel) as (st & E & Hh).
  pose proof (rasterize_replay process_fragment fuel triangle (Some buf) screen
                config) as Hrep.
  rewrite E in Hrep. cbn [state_of option_map] in Hrep.
  rewrite rasterize_unrolled in E; try assumption; try lia.
  match type of E with
  | run_list _ ?xs _ = _ =>
      match type of E with
      | context [run_list (sample_body _ _ _ _) ?ys] =>
          destruct (grid_delivers triangle config xs ys ltac:(lia)
                                  (init_state (Some buf)) buf eq_refl)
            as (st' & b' & E' & _ & Ht & Hc)
      end
  end.
  rewrite E in E'. injection E' as <-.
  cbn [init_state frag_calls samples_tested app Nat.add] in Ht, Hc.
  exists st. split.
  - rewrite rasterize_unrolled; try assumption; lia.
  - split; [exact Hc|]. split; [exact Ht|]. split; [|exact Hrep].
    rewrite Hh, Hc, length_map. reflexivity.
Qed.

(** X12.  One fragment per hit, in scan order.  With a buffer, [ss_i > 0]
    and loop increments that stay inside [int], the call returns and has
    delivered exactly the covered grid points of the box, x outermost and y
    innermost, each as the call of lines 141-155; the body ran once per grid
    point, the hit count is the number of calls (modulo [2^32]), and the
    buffer is the caller's with these calls applied in order. *)
Theorem fragments_in_scan_order
        (triangle : Triangle) (buf : ZBuff) (screen : Screen) (config : Config) :
  0 < ss_i config -> walk_in_range screen config ->
  let b := get_bounding_box triangle screen config in
  let xs := walked (smp_x (lower_left b)) (smp_x (upper_right b)) (ss_i config) in
  let ys := walked (smp_y (lower_left b)) (smp_y (upper_right b)) (ss_i config) in
  exists fuel0, forall fuel, (fuel0 <= fuel)%nat ->
    exists st,
      rasterize_triangle process_fragment fuel triangle (Some buf) screen config
      = Returned st /\
      frag_calls st = map (call_of triangle config)
                          (hit_samples triangle config xs ys) /\
      samples_tested st = (length xs * length ys)%nat /\
      hit_count st = wrap32 (Z.of_nat (length (frag_calls st))) /\
      zbuff st = Some (replay process_fragment (frag_calls st) buf).
Proof.
  intros Hstep Hr. cbv zeta. eexists. intros fuel Hfuel.
  apply (rasterize_delivers triangle buf screen config Hstep Hr fuel Hfuel).
Qed.

(** *** Calls and the samples they stand for *)

Lemma pixel_round_trip r s x :
  0 <= s <= r -> r < 31 -> 0 <= x -> (2 ^ (r - s) | x) ->
  sar32 x r * 2 ^ r +
  Z.quot (sub32 x (shl32 (sar32 x r) r)) (2 ^ (r - s)) * 2 ^ (r - s) = x.
Proof.
  intros Hs Hr Hx [q Hq]. rewrite pixel_offset.
  unfold sar32. rewrite count32_id by lia.
  rewrite Z.shiftr_div_pow2 by lia.
  set (cell := 2 ^ (r - s)) in *.
  assert (Hc : 0 < cell) by (apply Z.pow_pos_nonneg; lia).
  assert (Hp : 0 < 2 ^ r) by (apply Z.pow_pos_nonneg; lia).
  assert (Hrs : 2 ^ r = 2 ^ s * cell).
  { unfold cell. rewrite <- Z.pow_add_r by lia. f_equal. lia. }
  pose proof (Z.div_mod x (2 ^ r) ltac:(lia)) as Hdm.
  pose proof (Z.mod_pos_bound x (2 ^ r) Hp) as Hmb.
  rewrite Z.quot_div_nonneg by lia.
  assert (Hm : x mod 2 ^ r = (q - 2 ^ s * (x / 2 ^ r)) * cell) by nia.
  rewrite Hm at 1. rewrite Z.div_mul by lia. lia.
Qed.

Lemma call_decodes triangle config x y :
  well_formed config ->
  0 <= x -> 0 <= y -> (ss_i config | x) -> (ss_i config | y) ->
  sample_of_call config (call_of triangle config (x, y)) = (x, y).
Proof.
  intros (Hs & Hr & Hi) Hx Hy Hdx Hdy.
  unfold sample_of_call, call_of.
  cbn [hit_location subsample smp_x smp_y fst snd]. rewrite Hi in *.
  rewrite !pixel_round_trip by assumption. reflexivity.
Qed.

(** The walked coordinates are non-negative multiples of the stride. *)
Lemma walked_on_grid triangle screen config :
  well_formed config ->
  let b := get_bounding_box triangle screen config in
  (forall x, In x (walked (smp_x (lower_left b)) (smp_x (upper_right b))
                          (ss_i config)) ->
             0 <= x <= width screen /\ (ss_i config | x)) /\
  (forall y, In y (walked (smp_y (lower_left b)) (smp_y (upper_right b))
                          (ss_i config)) ->
             0 <= y <= height screen /\ (ss_i config | y)).
Proof.
  intros (Hs & Hr & Hi). cbv zeta.
  assert (Hc : 0 < ss_i config).
  { rewrite Hi. apply Z.pow_pos_nonneg; lia. }
  destruct (walked_box triangle screen config) as (Hlx & Hly & Hux & Huy).
  assert (Hgrid : forall a, (ss_i config | Z.max (floor_ss a (r_shift config)
                                                           (ss_w_lg2 config)) 0)).
  { intros a. rewrite floor_ss_grid by lia. rewrite <- Hi.
    destruct (Z.max_spec (ss_i config * (a / ss_i config)) 0) as [[_ E] | [_ E]];
      rewrite E.
    - exists 0. lia.
    - exists (a / ss_i config). lia. }
  split; intros c Hin; apply in_walked in Hin; try exact Hc;
    destruct Hin as [Hb Hd].
  - split; [lia|].
    replace c with (c - smp_x (lower_left (get_bounding_box triangle screen config))
                    + smp_x (lower_left (get_bounding_box triangle screen config)))
      by lia.
    apply Z.divide_add_r; [exact Hd|]. rewrite Hlx. apply Hgrid.
  - split; [lia|].
    replace c with (c - smp_y (lower_left (get_bounding_box triangle screen config))
                    + smp_y (lower_left (get_bounding_box triangle screen config)))
      by lia.
    apply Z.divide_add_r; [exact Hd|]. rewrite Hly. apply Hgrid.
Qed.

(** X13.  Round trip of the delivered coordinates.  For a well-formed
    [Config] whose loop increments stay inside [int], the call with a
    buffer returns, and reading each delivered call back as
    [hit_location * 2^r_shift + subsample * ss_i] gives exactly the covered
    grid points, in the order they were visited: no two hits share a pixel
    and subsample slot, and none is lost. *)
Theorem calls_decode_to_hits
        (triangle : Triangle) (buf : ZBuff) (screen : Screen) (config : Config) :
  well_formed config -> walk_in_range screen config ->
  let b := get_bounding_box triangle screen config in
  let xs := walked (smp_x (lower_left b)) (smp_x (upper_right b)) (ss_i config) in
  let ys := walked (smp_y (lower_left b)) (smp_y (upper_right b)) (ss_i config) in
  exists fuel0, forall fuel, (fuel0 <= fuel)%nat ->
    exists st,
      rasterize_triangle process_fragment fuel triangle (Some buf) screen config
      = Returned st /\
      map (sample_of_call config) (frag_calls st)
      = hit_samples triangle config xs ys.
Proof.
  intros Hwf Hr. cbv zeta.
  assert (Hc : 0 < ss_i config).
  { destruct Hwf as (Hs & Hr' & Hi). rewrite Hi. apply Z.pow_pos_nonneg; lia. }
  eexists. intros fuel Hfuel.
  destruct (rasterize_delivers triangle buf screen config Hc Hr fuel Hfuel)
    as (st & E & Hcalls & _).
  exists st. split; [exact E|].
  rewrite Hcalls, map_map.
  rewrite <- (map_id (hit_samples _ _ _ _)) at 2.
  apply map_ext_in. intros [x y] Hin.
  unfold hit_samples in Hin. apply filter_In in Hin. destruct Hin as [Hin _].
  apply in_prod_iff in Hin. destruct Hin as [Hx Hy].
  destruct (walked_on_grid triangle screen config Hwf) as [Gx Gy].
  destruct (Gx x Hx) as [Bx Dx]. destruct (Gy y Hy) as [By Dy].
  apply call_decodes; try assumption; lia.
Qed.

(** *** Winding and the hit count *)

Lemma sample_test_wrap triangle a b :
  sample_test triangle (mkSample (wrap32 a) (wrap32 b))
  = sample_test triangle (mkSample a b).
Proof.
  unfold sample_test, sub32. cbn [smp_x smp_y].
  rewrite !wrap32_sub_wrap32. reflexivity.
Qed.

Lemma filter_nil_all {A} (f : A -> bool) (l : list A) :
  (forall a, In a l -> f a = false) -> filter f l = [].
Proof.
  induction l as [|a l IH]; intros H; cbn [filter]; [reflexivity|].
  rewrite (H a (or_introl eq_refl)). apply IH.
  intros a' Ha'. apply H. right. exact Ha'.
Qed.

(** No walked sample of a triangle that is degenerate or wound the other
    way is a hit. *)
Lemma no_hit_samples triangle screen config :
  well_formed config -> ss_w_lg2 config <= 8 ->
  small_extent_jittered triangle config -> 0 <= orientation triangle ->
  let b := get_bounding_box triangle screen config in
  hit_samples triangle config
    (walked (smp_x (lower_left b)) (smp_x (upper_right b)) (ss_i config))
    (walked (smp_y (lower_left b)) (smp_y (upper_right b)) (ss_i config)) = [].
Proof.
  intros Hwf Hs8 [Hex Hey] Ho. cbv zeta. unfold hit_samples.
  apply filter_nil_all. intros [x y] Hin. cbn [fst snd].
  apply in_prod_iff in Hin. destruct Hin as [Hx Hy].
  destruct Hwf as (Hs & Hr & Hi).
  assert (Hc : 0 < ss_i config).
  { rewrite Hi. apply Z.pow_pos_nonneg; lia. }
  apply in_walked in Hx, Hy; try exact Hc.
  destruct Hx as [Hx _], Hy as [Hy _].
  destruct (walked_box triangle screen config) as (Hlx & Hly & Hux & Huy).
  unfold snapped_box, bbox_snap in Hlx, Hly, Hux, Huy.
  cbn [lower_left upper_right smp_x smp_y] in Hlx, Hly, Hux, Huy.
  rewrite !floor_ss_grid in Hlx, Hly, Hux, Huy by lia.
  rewrite <- Hi in Hlx, Hly, Hux, Huy.
  set (e := bbox_extent triangle) in *.
  set (cell := ss_i config) in *.
  assert (Hfl : forall a, a - cell < cell * (a / cell) <= a).
  { intros a. pose proof (Z.div_mod a cell ltac:(lia)).
    pose proof (Z.mod_pos_bound a cell Hc). lia. }
  pose proof (Hfl (smp_x (lower_left e))). pose proof (Hfl (smp_y (lower_left e))).
  pose proof (Hfl (smp_x (upper_right e))). pose proof (Hfl (smp_y (upper_right e))).
  destruct (jitter_offsets config x y ltac:(lia)) as (jx & jy & Hjx & Hjy & E).
  assert (Hle : 2 ^ (8 - ss_w_lg2 config) <= 2 ^ 8)
    by (apply Z.pow_le_mono_r; lia).
  rewrite E. unfold add32. rewrite sample_test_wrap.
  destruct (sample_test triangle (mkSample (x + 4 * jx) (y + 4 * jy))) eqn:Et;
    [|reflexivity].
  exfalso.
  assert (Hn : near triangle (x + 4 * jx) (y + 4 * jy)).
  { intros i Hi3. destruct (vertices_in_extent triangle i Hi3) as [Vx Vy].
    fold e in Vx, Vy. lia. }
  rewrite (sample_test_exact _ _ _ Hn) in Et.
  apply covered_ref_orientation in Et. lia.
Qed.

(** X14.  A triangle supplied with the wrong winding, or a degenerate
    one, yields nothing.  For a well-formed [Config] with [ss_w_lg2 <= 8],
    loop increments inside [int] and a triangle whose box, one cell and the
    largest jitter fit in 15 bits, a non-negative shoelace sum makes
    [rasterize_triangle] return 0 and deliver no fragment. *)
Theorem wrong_winding_no_hits
        (triangle : Triangle) (z : option ZBuff) (screen : Screen) (config : Config) :
  well_formed config -> ss_w_lg2 config <= 8 ->
  walk_in_range screen config -> small_extent_jittered triangle config ->
  0 <= orientation triangle ->
  exists fuel0, forall fuel, (fuel0 <= fuel)%nat ->
    returned_hits (rasterize_triangle process_fragment fuel triangle z screen config)
    = Some 0 /\
    frag_calls
      (state_of (rasterize_triangle process_fragment fuel triangle z screen config))
    = [].
Proof.
  intros Hwf Hs8 Hr Hext Ho.
  assert (Hc : 0 < ss_i config).
  { destruct Hwf as (Hs & Hr' & Hi). rewrite Hi. apply Z.pow_pos_nonneg; lia. }
  pose proof (no_hit_samples triangle screen config Hwf Hs8 Hext Ho) as Hnone.
  cbv zeta in Hnone.
  eexists. intros fuel Hfuel.
  destruct (rasterize_returns process_fragment triangle z screen config Hc Hr
                              fuel Hfuel) as (st & E & Hh).
  unfold hits_on in Hh. unfold hit_samples in Hnone. rewrite Hnone in Hh.
  split.
  - rewrite E. cbn [returned_hits]. rewrite Hh. reflexivity.
  - destruct z as [buf|].
    + destruct (rasterize_delivers triangle buf screen config Hc Hr fuel Hfuel)
        as (st' & E' & Hcalls & _).
      rewrite E'. cbn [state_of]. rewrite Hcalls.
      unfold hit_samples. rewrite Hnone. reflexivity.
    + apply (rasterize_null_silent process_fragment fuel triangle screen config).
Qed.

End OrchestratorFacts.

(** ** Further runs on the test inputs *)

Lemma body_runs_iff_valid_witness :
  (0 < 5)%nat /\
  let o := rasterize_triangle record_fragment 5 tri_right (Some [])
                              screen_64 config_r1 in
  ((0 < samples_tested (state_of o))%nat <->
   valid (get_bounding_box tri_right screen_64 config_r1) = true) /\
  (valid (get_bounding_box tri_right screen_64 config_r1) = false ->
   state_of o = init_state (Some [])).
Proof.
  split; [lia|].
  apply (body_runs_iff_valid record_fragment 5 tri_right (Some []) screen_64
           config_r1). lia.
Defined.

Lemma fragments_in_scan_order_witness :
  0 < ss_i config_r1 /\ walk_in_range screen_64 config_r1 /\
  let b := get_bounding_box tri_right screen_64 config_r1 in
  let xs := walked (smp_x (lower_left b)) (smp_x (upper_right b)) (ss_i config_r1) in
  let ys := walked (smp_y (lower_left b)) (smp_y (upper_right b)) (ss_i config_r1) in
  exists fuel0, forall fuel, (fuel0 <= fuel)%nat ->
    exists st,
      rasterize_triangle record_fragment fuel tri_right (Some []) screen_64 config_r1
      = Returned st /\
      frag_calls st = map (call_of tri_right config_r1)
                          (hit_samples tri_right config_r1 xs ys) /\
      samples_tested st = (length xs * length ys)%nat /\
      hit_count st = wrap32 (Z.of_nat (length (frag_calls st))) /\
      zbuff st = Some (replay record_fragment (frag_calls st) []).
Proof.
  assert (H1 : 0 < ss_i config_r1) by (vm_compute; reflexivity).
  assert (H2 : walk_in_range screen_64 config_r1)
    by (vm_compute; intuition discriminate).
  split; [exact H1|]. split; [exact H2|].
  exact (fragments_in_scan_order record_fragment tri_right [] screen_64 config_r1
           H1 H2).
Defined.

Lemma calls_decode_to_hits_witness :
  well_formed config_r1 /\ walk_in_range screen_64 config_r1 /\
  let b := get_bounding_box tri_right screen_64 config_r1 in
  let xs := walked (smp_x (lower_left b)) (smp_x (upper_right b)) (ss_i config_r1) in
  let ys := walked (smp_y (lower_left b)) (smp_y (upper_right b)) (ss_i config_r1) in
  exists fuel0, forall fuel, (fuel0 <= fuel)%nat ->
    exists st,
      rasterize_triangle record_fragment fuel tri_right (Some []) screen_64 config_r1
      = Returned st /\
      map (sample_of_call config_r1) (frag_calls st)
      = hit_samples tri_right config_r1 xs ys.
Proof.
  assert (H1 : well_formed config_r1) by (vm_compute; intuition discriminate).
  assert (H2 : walk_in_range screen_64 config_r1)
    by (vm_compute; intuition discriminate).
  split; [exact H1|]. split; [exact H2|].
  exact (calls_decode_to_hits record_fragment tri_right [] screen_64 config_r1
           H1 H2).
Defined.

(** The order of delivery on [tri_right]: column x = 0 first, bottom up. *)
Example scan_order_tri_right :
  map (sample_of_call config_r1)
      (frag_calls
         (state_of (rasterize_triangle record_fragment 20 tri_right (Some [])
                                       screen_64 config_r1)))
  = [(0, 0); (0, 1); (0, 2); (0, 3); (1, 0); (1, 1); (1, 2); (2, 0); (2, 1); (3, 0)].
Proof. vm_compute. reflexivity. Qed.

Lemma wrong_winding_no_hits_witness :
  well_formed config_r4 /\ ss_w_lg2 config_r4 <= 8 /\
  walk_in_range screen_256 config_r4 /\ small_extent_jittered tri_counter config_r4 /\
  0 <= orientation tri_counter /\
  exists fuel0, forall fuel, (fuel0 <= fuel)%nat ->
    returned_hits
      (rasterize_triangle record_fragment fuel tri_counter (Some []) screen_256
                          config_r4)
    = Some 0 /\
    frag_calls
      (state_of (rasterize_triangle record_fragment fuel tri_counter (Some [])
                                    screen_256 config_r4))
    = [].
Proof.
  assert (H1 : well_formed config_r4) by (vm_compute; intuition discriminate).
  assert (H2 : ss_w_lg2 config_r4 <= 8) by (vm_compute; discriminate).
  assert (H3 : walk_in_range screen_256 config_r4)
    by (vm_compute; intuition discriminate).
  assert (H4 : small_extent_jittered tri_counter config_r4)
    by (vm_compute; intuition discriminate).
  assert (H5 : 0 <= orientation tri_counter) by (vm_compute; discriminate).
  repeat (split; [assumption|]).
  exact (wrong_winding_no_hits record_fragment tri_counter (Some []) screen_256
           config_r4 H1 H2 H3 H4 H5).
Defined.

(** ** The box and the order of the vertices *)

Lemma bbox_extent_eta triangle :
  bbox_extent triangle =
  mkBBox (mkSample (smp_x (lower_left (bbox_extent triangle)))
                   (smp_y (lower_left (bbox_extent triangle))))
         (mkSample (smp_x (upper_right (bbox_extent triangle)))
                   (smp_y (upper_right (bbox_extent triangle))))
         true.
Proof. reflexivity. Qed.

(** X15.  The bounding box does not depend on the order in which the
    three vertices are given, unlike the coverage test: exchanging two
    vertices or renaming them cyclically leaves [get_bounding_box]
    unchanged on every screen and [Config]. *)
Theorem bounding_box_vertex_order
        (triangle : Triangle) (screen : Screen) (config : Config) :
  get_bounding_box (reverse_winding triangle) screen config
  = get_bounding_box triangle screen config /\
  get_bounding_box (rotate_vertices triangle) screen config
  = get_bounding_box triangle screen config.
Proof.
  assert (H : forall t t',
             (forall i, (i < 3)%nat -> exists j, (j < 3)%nat /\ v t i = v t' j) ->
             (forall j, (j < 3)%nat -> exists i, (i < 3)%nat /\ v t i = v t' j) ->
             bbox_extent t = bbox_extent t').
  { intros t t' H1 H2.
    rewrite (bbox_extent_eta t), (bbox_extent_eta t').
    assert (Hx : forall s s',
               (forall i, (i < 3)%nat -> exists j, (j < 3)%nat /\ v s i = v s' j) ->
               smp_x (lower_left (bbox_extent s')) <= smp_x (lower_left (bbox_extent s)) /\
               smp_y (lower_left (bbox_extent s')) <= smp_y (lower_left (bbox_extent s)) /\
               smp_x (upper_right (bbox_extent s)) <= smp_x (upper_right (bbox_extent s')) /\
               smp_y (upper_right (bbox_extent s)) <= smp_y (upper_right (bbox_extent s'))).
    { intros s s' Hs.
      destruct (bbox_extent_fields s) as (Hlx & Hly & Hux & Huy).
      destruct (Hs 0%nat ltac:(lia)) as (j0 & Hj0 & E0).
      destruct (Hs 1%nat ltac:(lia)) as (j1 & Hj1 & E1).
      destruct (Hs 2%nat ltac:(lia)) as (j2 & Hj2 & E2).
      pose proof (vertices_in_extent s' j0 Hj0).
      pose proof (vertices_in_extent s' j1 Hj1).
      pose proof (vertices_in_extent s' j2 Hj2).
      rewrite Hlx, Hly, Hux, Huy, E0, E1, E2. lia. }
    pose proof (Hx t t' H1) as A.
    assert (B : forall i, (i < 3)%nat -> exists j, (j < 3)%nat /\ v t' i = v t j).
    { intros i Hi. destruct (H2 i Hi) as (j & Hj & E). exists j. auto. }
    pose proof (Hx t' t B) as C.
    f_equal; f_equal; lia. }
  unfold get_bounding_box. split; f_equal; f_equal; f_equal; apply H;
    intros i Hi; destruct i as [|[|[|i]]]; try lia;
    cbn [reverse_winding rotate_vertices v tv0 tv1 tv2].
  - exists 0%nat; split; [lia|reflexivity].
  - exists 2%nat; split; [lia|reflexivity].
  - exists 1%nat; split; [lia|reflexivity].
  - exists 0%nat; split; [lia|reflexivity].
  - exists 2%nat; split; [lia|reflexivity].
  - exists 1%nat; split; [lia|reflexivity].
  - exists 1%nat; split; [lia|reflexivity].
  - exists 2%nat; split; [lia|reflexivity].
  - exists 0%nat; split; [lia|reflexivity].
  - exists 2%nat; split; [lia|reflexivity].
  - exists 0%nat; split; [lia|reflexivity].
  - exists 1%nat; split; [lia|reflexivity].
Qed.
